(** * VisionLint: the integrity linter of [vision_lint/core/auditor.py]

    A shallow embedding of [IntegrityLinter.check] and
    [IntegrityLinter.check_image_integrity].  The file system and the two
    decoding libraries (PIL and OpenCV) are external collaborators: they are
    modelled by an environment [Env] that answers each query the code makes,
    and the code itself runs in a small monad that records every query it
    issues (a trace) and propagates Python exceptions. *)

From Stdlib Require Import String Ascii List Bool Arith ZArith NArith Lia.
Import ListNotations.
Open Scope string_scope.
Open Scope list_scope.
#[local] Set Warnings "-register-all".

(** ** Python exceptions *)

(** The classes of exception the code can meet.  [IOError] is [OSError] in
    Python 3; PIL's [UnidentifiedImageError] is a subclass of it.
    [KeyboardInterrupt] and [SystemExit] derive from [BaseException] only. *)
Inductive exn_class :=
| OSError
| SyntaxError
| UnidentifiedImageError
| Cv2Error
| IndexError
| OtherError
| KeyboardInterrupt
| SystemExit.

Record exn := mk_exn { exn_cls : exn_class; exn_str : string }.

(** [isinstance(e, Exception)] *)
Definition is_Exception (c : exn_class) : bool :=
  match c with
  | KeyboardInterrupt | SystemExit => false
  | _ => true
  end.

(** [except (IOError, SyntaxError, UnidentifiedImageError)] *)
Definition pil_handled (c : exn_class) : bool :=
  match c with
  | OSError | SyntaxError | UnidentifiedImageError => true
  | _ => false
  end.

(** [except cv2.error] *)
Definition cv2_handled (c : exn_class) : bool :=
  match c with Cv2Error => true | _ => false end.

(** ** The Finding record ([vision_lint/base.py]) *)

Record LintResult := mk_result {
  file_path : string;
  linter_name : string;
  issue_type : string;
  severity : string;
  message : string }.

(** ** File system and decoders *)

(** A directory tree as [os.walk] sees it. *)
Inductive node :=
| File (name : string)
| Dir (name : string) (children : list node).

(** A decoded OpenCV array: its [shape] and its pixels in row-major order,
    each pixel the list of its channel values (uint8). *)
Record ndarray := mk_ndarray { shape : list nat; pixels : list (list Z) }.

(** Queries the code makes, as recorded in the trace. *)
Inductive call :=
| CExists (p : string)
| CIsFile (p : string)
| CWalk (p : string)
| CGetSize (p : string)
| CPilVerify (p : string)
| CImread (p : string).

(** The environment: what the operating system and the libraries answer.
    [lookup] resolves a path; [getsize] is [os.path.getsize];
    [pil_verify] is [Image.open(p)] followed by [img.verify()] (it may raise);
    [imread] is [cv2.imread] (it may raise or return [None]);
    [set_order] is the iteration order of the Python set
    [self.supported_extensions] in this interpreter run, which fixes its
    [str] rendering. *)
Record Env := mk_env {
  lookup : string -> option node;
  getsize : string -> exn + N;
  pil_verify : string -> option exn;
  imread : string -> exn + option ndarray;
  set_order : list string }.

(** ** A writer-and-exception monad *)

Definition M (A : Type) : Type := (list call * (exn + A))%type.

Definition ret {A} (a : A) : M A := ([], inr a).
Definition raise {A} (e : exn) : M A := ([], inl e).

Definition bind {A B} (m : M A) (k : A -> M B) : M B :=
  match m with
  | (t1, inl e) => (t1, inl e)
  | (t1, inr a) => let (t2, r) := k a in (t1 ++ t2, r)
  end.

Notation "x <- m ;; k" := (bind m (fun x => k))
  (at level 61, m at next level, right associativity).

(** [try: m except e: h e] *)
Definition try_except {A} (m : M A) (h : exn -> M A) : M A :=
  match m with
  | (t1, inl e) => let (t2, r) := h e in (t1 ++ t2, r)
  | (t1, inr a) => (t1, inr a)
  end.

Definition emit (c : call) : M unit := ([c], inr tt).

Definition trace {A} (m : M A) : list call := fst m.
Definition outcome {A} (m : M A) : exn + A := snd m.

(** ** String helpers *)

Definition lower_ascii (c : ascii) : ascii :=
  let n := nat_of_ascii c in
  if Nat.leb 65 n && Nat.leb n 90 then ascii_of_nat (n + 32) else c.

(** [str.lower] (on the ASCII range) *)
Fixpoint lower (s : string) : string :=
  match s with
  | EmptyString => EmptyString
  | String c s' => String (lower_ascii c) (lower s')
  end.

(** [str.endswith] *)
Definition endswith (s suf : string) : bool :=
  let n := String.length s in
  let m := String.length suf in
  Nat.leb m n && String.eqb (substring (n - m) m s) suf.

(** [str.startswith] *)
Definition startswith (s pre : string) : bool :=
  String.eqb (substring 0 (String.length pre) s) pre.

(** [os.path.join(a, b)] on POSIX *)
Definition path_join (a b : string) : string :=
  if startswith b "/" then b
  else if String.eqb a "" then b
  else if endswith a "/" then a ++ b
  else a ++ "/" ++ b.

(** [str(set)] for a set of strings iterated in order [xs] *)
Fixpoint join_items (xs : list string) : string :=
  match xs with
  | [] => ""
  | [x] => "'" ++ x ++ "'"
  | x :: xs' => "'" ++ x ++ "', " ++ join_items xs'
  end.

Definition py_set_repr (xs : list string) : string :=
  "{" ++ join_items xs ++ "}".

(** ** Effects of the file system and the libraries *)

Section Effects.
Variable env : Env.

(** [os.path.exists] *)
Definition os_path_exists (p : string) : M bool :=
  _ <- emit (CExists p) ;;
  ret (match lookup env p with Some _ => true | None => false end).

(** [os.path.isfile] *)
Definition os_path_isfile (p : string) : M bool :=
  _ <- emit (CIsFile p) ;;
  ret (match lookup env p with Some (File _) => true | _ => false end).

Definition file_names (cs : list node) : list string :=
  flat_map (fun c => match c with File nm => [nm] | Dir _ _ => [] end) cs.

(** The walk of the subdirectories among [cs], in order, each below
    [os.path.join(top, name)]; [walk] walks one subdirectory. *)
Fixpoint walk_subdirs (walk : string -> node -> list (string * list string))
  (top : string) (cs : list node) : list (string * list string) :=
  match cs with
  | [] => []
  | c :: cs' =>
      match c with
      | File _ => walk_subdirs walk top cs'
      | Dir nm _ => walk (path_join top nm) c ++ walk_subdirs walk top cs'
      end
  end.

(** The [(root, files)] pairs [os.walk] yields below [top] for the node
    [n], top-down: the directory itself, then each subdirectory in order.
    Every subdirectory is entered, whatever its name. *)
Fixpoint walk_node (top : string) (n : node) : list (string * list string) :=
  match n with
  | File _ => []
  | Dir _ cs => (top, file_names cs) :: walk_subdirs walk_node top cs
  end.

(** [os.walk(top)]; a path that is not a directory yields nothing
    (its [onerror] is [None]). *)
Definition os_walk (p : string) : M (list (string * list string)) :=
  _ <- emit (CWalk p) ;;
  ret (match lookup env p with Some n => walk_node p n | None => [] end).

Definition os_path_getsize (p : string) : M N :=
  _ <- emit (CGetSize p) ;;
  match getsize env p with inl e => raise e | inr n => ret n end.

Definition pil_open_verify (p : string) : M unit :=
  _ <- emit (CPilVerify p) ;;
  match pil_verify env p with Some e => raise e | None => ret tt end.

Definition cv2_imread (p : string) : M (option ndarray) :=
  _ <- emit (CImread p) ;;
  match imread env p with inl e => raise e | inr r => ret r end.

End Effects.

(** ** Python values rendered in messages *)

Fixpoint digits_aux (fuel n : nat) (acc : string) : string :=
  match fuel with
  | O => acc
  | S f =>
      let acc' := String (ascii_of_nat (48 + n mod 10)) acc in
      if Nat.ltb n 10 then acc' else digits_aux f (n / 10) acc'
  end.

(** [str(n)] for a non-negative integer *)
Definition nat_to_string (n : nat) : string := digits_aux (S n) n "".

Fixpoint join_nats (xs : list nat) : string :=
  match xs with
  | [] => ""
  | [x] => nat_to_string x
  | x :: xs' => nat_to_string x ++ ", " ++ join_nats xs'
  end.

(** [str(tuple)] for a shape tuple *)
Definition py_tuple_repr (xs : list nat) : string :=
  match xs with
  | [x] => "(" ++ nat_to_string x ++ ",)"
  | _ => "(" ++ join_nats xs ++ ")"
  end.

(** ** numpy / OpenCV array operations *)

(** [img.size]: the product of the shape *)
Definition ndarray_size (a : ndarray) : nat := fold_right Nat.mul 1 (shape a).

(** [img.shape[i]]: indexing a tuple raises [IndexError] out of range *)
Definition py_index (xs : list nat) (i : nat) : M nat :=
  match nth_error xs i with
  | Some x => ret x
  | None => raise (mk_exn IndexError "tuple index out of range")
  end.

(** One channel plane of a multi-channel array, as [cv2.split] returns it *)
Definition plane (c : nat) (a : ndarray) : list Z :=
  map (fun px => nth c px 0%Z) (pixels a).

(** [cv2.split] of a three-channel array *)
Definition cv2_split3 (a : ndarray) : list Z * list Z * list Z :=
  (plane 0 a, plane 1 a, plane 2 a).

(** [np.array_equal] on two planes of the same shape *)
Definition array_equal (x y : list Z) : bool :=
  if list_eq_dec Z.eq_dec x y then true else false.

(** ** [IntegrityLinter] *)

Definition linter := "IntegrityLinter".

(** [self.supported_extensions] *)
Definition supported_extensions : list string :=
  [".jpg"; ".jpeg"; ".png"; ".bmp"; ".tiff"; ".webp"].

(** [any(s.lower().endswith(ext) for ext in self.supported_extensions)] *)
Definition has_supported_ext (s : string) : bool :=
  existsb (fun ext => endswith (lower s) ext) supported_extensions.

(** [file.startswith('.') or file == 'Thumbs.db'] *)
Definition is_skipped (file : string) : bool :=
  startswith file "." || String.eqb file "Thumbs.db".

Section Linter.
Variable env : Env.

Definition ext_repr : string := py_set_repr (set_order env).

Definition r_empty (p : string) : LintResult :=
  mk_result p linter "Empty File" "Critical" "File size is 0 bytes".
Definition r_pil (p : string) (e : exn) : LintResult :=
  mk_result p linter "Corrupted Image (PIL)" "Critical"
    ("PIL cannot open/verify image: " ++ exn_str e).
Definition r_cv (p : string) (e : exn) : LintResult :=
  mk_result p linter "Corrupted Image (OpenCV)" "Critical"
    ("OpenCV cannot decode image: " ++ exn_str e).
Definition r_cv_none (p : string) : LintResult :=
  mk_result p linter "Corrupted Image (OpenCV)" "Critical"
    "OpenCV cannot decode image (returned None)".
Definition r_zero (p : string) (a : ndarray) : LintResult :=
  mk_result p linter "Zero Pixel Area" "Critical"
    ("Image has invalid dimensions: " ++ py_tuple_repr (shape a)).
Definition r_gray (p : string) : LintResult :=
  mk_result p linter "Grayscale as RGB" "Warning"
    "Image is encoded as RGB but all pixels are grayscale (R=G=B)".
Definition r_unknown (p : string) (e : exn) : LintResult :=
  mk_result p linter "Unknown Error" "Critical"
    ("An unexpected error occurred: " ++ exn_str e).
Definition r_path_error (p : string) : LintResult :=
  mk_result p linter "Path Error" "Critical" "Path does not exist".
Definition r_unsupported (p : string) : LintResult :=
  mk_result p linter "No Images Found" "Critical"
    ("File extension not supported. Supported: " ++ ext_repr).
Definition r_no_images (p : string) : LintResult :=
  mk_result p linter "No Images Found" "Critical"
    ("No image files found with extensions " ++ ext_repr).

(** [img_cv.size == 0 or img_cv.shape[0] == 0 or img_cv.shape[1] == 0],
    evaluated left to right with short-circuit [or] *)
Definition zero_area (a : ndarray) : M bool :=
  if Nat.eqb (ndarray_size a) 0 then ret true
  else
    s0 <- py_index (shape a) 0 ;;
    if Nat.eqb s0 0 then ret true
    else
      s1 <- py_index (shape a) 1 ;;
      ret (Nat.eqb s1 0).

(** Stage 4: [len(img_cv.shape) == 3 and img_cv.shape[2] == 3], then the
    comparison of the split planes; [results] is the list built so far. *)
Definition grayscale_stage (p : string) (a : ndarray) (results : list LintResult)
  : M (list LintResult) :=
  if Nat.eqb (length (shape a)) 3 && Nat.eqb (nth 2 (shape a) 0) 3 then
    let '(b, g, r) := cv2_split3 a in
    if array_equal b g && array_equal b r
    then ret (results ++ [r_gray p])
    else ret results
  else ret results.

(** The body of the outer [try] of [check_image_integrity] *)
Definition check_image_integrity_body (p : string) : M (list LintResult) :=
  let results : list LintResult := [] in
  (* 1. empty file *)
  sz <- os_path_getsize env p ;;
  if N.eqb sz 0 then ret [r_empty p]
  else
  (* 2. PIL *)
  r2 <- try_except (_ <- pil_open_verify env p ;; ret None)
          (fun e => if pil_handled (exn_cls e)
                    then ret (Some [r_pil p e]) else raise e) ;;
  match r2 with
  | Some res => ret res
  | None =>
  (* 3. OpenCV *)
  r3 <- try_except (img <- cv2_imread env p ;; ret (inl img))
          (fun e => if cv2_handled (exn_cls e)
                    then ret (inr [r_cv p e]) else raise e) ;;
  match r3 with
  | inr res => ret res
  | inl None => ret [r_cv_none p]
  | inl (Some img) =>
      z <- zero_area img ;;
      if z then ret [r_zero p img]
      else
      (* 4. hidden grayscale *)
      grayscale_stage p img results
  end
  end.

(** [check_image_integrity]: the outer [except Exception] *)
Definition check_image_integrity (p : string) : M (list LintResult) :=
  try_except (check_image_integrity_body p)
    (fun e => if is_Exception (exn_cls e) then ret [r_unknown p e] else raise e).

(** The inner loop [for file in files] of the walk, threading
    [(images_found, results)] *)
Fixpoint scan_files (root : string) (files : list string)
  (acc : bool * list LintResult) : M (bool * list LintResult) :=
  match files with
  | [] => ret acc
  | file :: fs =>
      if is_skipped file then scan_files root fs acc
      else if has_supported_ext file then
        let fp := path_join root file in
        fr <- check_image_integrity fp ;;
        scan_files root fs (true, snd acc ++ fr)
      else scan_files root fs acc
  end.

(** The outer loop [for root, _, files in os.walk(data_path)] *)
Fixpoint scan_walk (entries : list (string * list string))
  (acc : bool * list LintResult) : M (bool * list LintResult) :=
  match entries with
  | [] => ret acc
  | (root, files) :: es =>
      acc' <- scan_files root files acc ;;
      scan_walk es acc'
  end.

(** [IntegrityLinter.check] *)
Definition check (data_path : string) : M (list LintResult) :=
  ex <- os_path_exists env data_path ;;
  if negb ex then ret [r_path_error data_path]
  else
  isf <- os_path_isfile env data_path ;;
  if isf then
    (if has_supported_ext data_path
     then check_image_integrity data_path
     else ret [r_unsupported data_path])
  else
  entries <- os_walk env data_path ;;
  acc <- scan_walk entries (false, []) ;;
  if negb (fst acc) then ret [r_no_images data_path]
  else ret (snd acc).

End Linter.

(** ** Derived notions used by the statements *)

(** A file the directory walk checks: [not skipped and supported] *)
Definition eligible (f : string) : bool :=
  negb (is_skipped f) && has_supported_ext f.

(** The findings [check_image_integrity] returns on [q], when it returns *)
Definition cii_res (env : Env) (q : string) : list LintResult :=
  match outcome (check_image_integrity env q) with
  | inr l => l
  | inl _ => []
  end.

(** The path of a query that belongs to a per-file check *)
Definition per_file_path (c : call) : option string :=
  match c with
  | CGetSize q | CPilVerify q | CImread q => Some q
  | _ => None
  end.

(** The environment raises no exception outside the [Exception] hierarchy
    (no [KeyboardInterrupt] or [SystemExit]) from the three per-file
    queries. *)
Definition no_interrupts (env : Env) : Prop :=
  forall q e,
    (getsize env q = inl e \/ pil_verify env q = Some e \/ imread env q = inl e) ->
    is_Exception (exn_cls e) = true.

(** Removing the hidden and [Thumbs.db] files from a list of children;
    [pr] prunes one subdirectory. *)
Fixpoint prune_children (pr : node -> node) (cs : list node) : list node :=
  match cs with
  | [] => []
  | c :: cs' =>
      match c with
      | File f => if is_skipped f then prune_children pr cs'
                  else File f :: prune_children pr cs'
      | Dir _ _ => pr c :: prune_children pr cs'
      end
  end.

(** Removing the hidden and [Thumbs.db] files from a directory tree *)
Fixpoint prune (n : node) : node :=
  match n with
  | File nm => File nm
  | Dir nm cs => Dir nm (prune_children prune cs)
  end.

(** A walk entry with its hidden and [Thumbs.db] files removed *)
Definition keep_visible (e : string * list string) : string * list string :=
  (fst e, filter (fun f => negb (is_skipped f)) (snd e)).

(** The environment in which the path [d] resolves to [n] instead *)
Definition with_lookup (env : Env) (d : string) (n : node) : Env :=
  mk_env (fun q => if String.eqb q d then Some n else lookup env q)
    (getsize env) (pil_verify env) (imread env) (set_order env).

(** [subdir_at top n r m]: the directory [m] lies in the tree [n] rooted
    at path [top], at path [r], reached through any chain of
    subdirectories (each step joins the subdirectory's name, whatever it
    is, to the path). *)
Inductive subdir_at : string -> node -> string -> node -> Prop :=
| subdir_here top n : subdir_at top n top n
| subdir_below top nm cs sub scs r m :
    In (Dir sub scs) cs -> subdir_at (path_join top sub) (Dir sub scs) r m ->
    subdir_at top (Dir nm cs) r m.

(** ** The earlier auditor ([vision_lint/core/auditor.py], top level)

    [IntegrityAuditor] is the first version of the linter, still shipped
    with its own command line.  Its per-file check returns at most one
    [Issue] ([Optional[Issue]]); the walk has no hidden-file rule, no
    single-file branch and no "no images" finding. *)

Module Legacy.

Record Issue := mk_issue {
  file_path : string;
  issue_type : string;
  description : string }.

Section Auditor.
Variable env : Env.

(** [IntegrityAuditor.check_image_integrity], the body of its outer [try].
    Its PIL handler is [except (IOError, SyntaxError)], which also catches
    [UnidentifiedImageError], a subclass of [OSError]: the set [pil_handled].
    [cv2.imread] has no handler of its own. *)
Definition check_image_integrity_body (p : string) : M (option Issue) :=
  sz <- os_path_getsize env p ;;
  if N.eqb sz 0 then ret (Some (mk_issue p "Empty File" "File size is 0 bytes"))
  else
  r2 <- try_except (_ <- pil_open_verify env p ;; ret None)
          (fun e => if pil_handled (exn_cls e)
                    then ret (Some (mk_issue p "Corrupted Image (PIL)"
                                      ("PIL cannot open/verify image: " ++ exn_str e)))
                    else raise e) ;;
  match r2 with
  | Some i => ret (Some i)
  | None =>
  img_cv <- cv2_imread env p ;;
  match img_cv with
  | None => ret (Some (mk_issue p "Corrupted Image (OpenCV)" "OpenCV cannot decode image"))
  | Some img =>
      z <- zero_area img ;;
      if z
      then ret (Some (mk_issue p "Zero Pixel Area"
                        ("Image has invalid dimensions: " ++ py_tuple_repr (shape img))))
      else ret None
  end
  end.

(** [IntegrityAuditor.check_image_integrity]: the outer [except Exception] *)
Definition check_image_integrity (p : string) : M (option Issue) :=
  try_except (check_image_integrity_body p)
    (fun e => if is_Exception (exn_cls e)
              then ret (Some (mk_issue p "Unknown Error"
                                ("An unexpected error occurred: " ++ exn_str e)))
              else raise e).

(** [for file in files]: [if issue: issues.append(issue)]; a dataclass
    instance is always truthy, so every [Issue] is appended. *)
Fixpoint scan_files (root : string) (files : list string) (issues : list Issue)
  : M (list Issue) :=
  match files with
  | [] => ret issues
  | file :: fs =>
      if has_supported_ext file then
        issue <- check_image_integrity (path_join root file) ;;
        match issue with
        | Some i => scan_files root fs (issues ++ [i])
        | None => scan_files root fs issues
        end
      else scan_files root fs issues
  end.

Fixpoint scan_walk (entries : list (string * list string)) (issues : list Issue)
  : M (list Issue) :=
  match entries with
  | [] => ret issues
  | (root, files) :: es =>
      issues' <- scan_files root files issues ;;
      scan_walk es issues'
  end.

(** [IntegrityAuditor.audit_dataset] *)
Definition audit_dataset (path : string) : M (list Issue) :=
  ex <- os_path_exists env path ;;
  if negb ex then ret [mk_issue path "Path Error" "Path does not exist"]
  else
  entries <- os_walk env path ;;
  scan_walk entries [].

End Auditor.

(** The issue the earlier check returns on [q], if any *)
Definition issue_of (env : Env) (q : string) : list Issue :=
  match outcome (check_image_integrity env q) with
  | inr (Some i) => [i]
  | _ => []
  end.

End Legacy.

(** ** A sample dataset

    The fixture of the test suite, as an environment: a clean RGB image, an
    empty file, a hidden empty file, a [Thumbs.db], a hidden directory with
    a grey image stored as RGB, and a text file; a second directory holds no
    eligible file. *)

Definition img_red : ndarray :=
  mk_ndarray [2; 2; 3] [[0; 0; 255]; [0; 0; 255]; [0; 0; 255]; [0; 0; 255]]%Z.

Definition img_gray : ndarray :=
  mk_ndarray [2; 2; 3] [[128; 128; 128]; [128; 128; 128]; [128; 128; 128]; [128; 128; 128]]%Z.

Definition data_children : list node :=
  [File "valid.jpg"; File "empty.jpg"; File ".hidden.jpg"; File "Thumbs.db";
   Dir ".cache" [File "gray.JPG"]; File "notes.txt"].

Definition tree_data : node := Dir "data" data_children.

Definition docs_children : list node :=
  [File "a.txt"; File ".b.jpg"; File "Thumbs.db"; Dir "sub" [File "c.md"]].

Definition tree_docs : node := Dir "docs" docs_children.

Definition sample_env : Env :=
  mk_env
    (fun q =>
       if String.eqb q "data" then Some tree_data
       else if String.eqb q "docs" then Some tree_docs
       else if String.eqb q "data/valid.jpg" then Some (File "valid.jpg")
       else if String.eqb q "data/.hidden.jpg" then Some (File ".hidden.jpg")
       else if String.eqb q "data/notes.txt" then Some (File "notes.txt")
       else None)
    (fun q =>
       if String.eqb q "data/empty.jpg" then inr 0%N
       else if String.eqb q "data/.hidden.jpg" then inr 0%N
       else inr 2048%N)
    (fun _ => None)
    (fun q =>
       if String.eqb q "data/.cache/gray.JPG" then inr (Some img_gray)
       else inr (Some img_red))
    supported_extensions.

(** The same files, with the user pressing Ctrl-C while OpenCV decodes. *)
Definition interrupted_env : Env :=
  mk_env (lookup sample_env) (getsize sample_env) (pil_verify sample_env)
    (fun _ => inl (mk_exn KeyboardInterrupt "")) (set_order sample_env).

(** Files the libraries fail on: a truncated JPEG that PIL rejects, a PNG
    OpenCV raises on, one it returns [None] for, an image with no rows and
    a one-dimensional array. *)
Definition faulty_env : Env :=
  mk_env (lookup sample_env) (getsize sample_env)
    (fun q =>
       if String.eqb q "data/trunc.jpg"
       then Some (mk_exn OSError "image file is truncated") else None)
    (fun q =>
       if String.eqb q "data/bad.png" then inl (mk_exn Cv2Error "decoder failure")
       else if String.eqb q "data/none.jpg" then inr None
       else if String.eqb q "data/zero.png" then inr (Some (mk_ndarray [0; 4; 3] []))
       else if String.eqb q "data/flat.png"
       then inr (Some (mk_ndarray [4] [[1]; [2]; [3]; [4]]%Z))
       else imread sample_env q)
    (set_order sample_env).

(** What [check] finds in the sample [data] directory *)
Definition sample_data_findings : list LintResult :=
  [mk_result "data/empty.jpg" "IntegrityLinter" "Empty File" "Critical"
     "File size is 0 bytes";
   mk_result "data/.cache/gray.JPG" "IntegrityLinter" "Grayscale as RGB" "Warning"
     "Image is encoded as RGB but all pixels are grayscale (R=G=B)"].

(** A directory with an image two levels down, below a hidden directory. *)
Definition deep_env : Env :=
  with_lookup sample_env "deep" (Dir "deep" [Dir "x" [Dir ".cache" [File "img.jpg"]]]).

(** ** Monad laws used below *)

Lemma bind_inr {A B} (m : M A) (k : A -> M B) a :
  outcome m = inr a -> bind m k = (trace m ++ trace (k a), outcome (k a)).
Proof.
  destruct m as [t [e|a']]; unfold outcome, trace; simpl; intros H; [discriminate|].
  injection H as ->. destruct (k a); reflexivity.
Qed.

Lemma bind_inl {A B} (m : M A) (k : A -> M B) e :
  outcome m = inl e -> bind m k = (trace m, inl e).
Proof.
  destruct m as [t [e'|a]]; unfold outcome, trace; simpl; intros H; [|discriminate].
  injection H as <-. reflexivity.
Qed.

Lemma in_trace_bind {A B} (m : M A) (k : A -> M B) c :
  In c (trace (bind m k)) ->
  In c (trace m) \/ exists a, outcome m = inr a /\ In c (trace (k a)).
Proof.
  destruct m as [t [e|a]]; unfold trace, outcome; simpl; [auto|].
  destruct (k a) as [t2 r] eqn:Hk; simpl. intros H.
  apply in_app_or in H as [H|H]; [auto|]. right. exists a. rewrite Hk. auto.
Qed.

(** ** C1 *)

(** C1: on a file of size zero, [check_image_integrity] queries the size
    only (no PIL, no OpenCV stage runs) and returns exactly the one
    Critical [Empty File] finding; running it twice in a row returns that
    same single finding both times. *)
Theorem C1_empty_file_short_circuit (env : Env) (p : string) :
  getsize env p = inr 0%N ->
  check_image_integrity env p =
    ([CGetSize p],
     inr [mk_result p "IntegrityLinter" "Empty File" "Critical" "File size is 0 bytes"])
  /\ (r1 <- check_image_integrity env p ;; r2 <- check_image_integrity env p ;;
      ret (r1, r2)) =
    ([CGetSize p; CGetSize p],
     inr ([mk_result p "IntegrityLinter" "Empty File" "Critical" "File size is 0 bytes"],
          [mk_result p "IntegrityLinter" "Empty File" "Critical" "File size is 0 bytes"])).
Proof.
  intros H. unfold check_image_integrity, check_image_integrity_body,
    os_path_getsize, try_except, bind, emit, ret.
  rewrite H. simpl. split; reflexivity.
Qed.

(** ** C6 *)

(** C6: on a path that does not resolve, [check] makes the existence query
    only (no file is examined) and returns exactly one Critical
    [Path Error] finding for the input path, "Path does not exist". *)
Theorem C6_missing_path (env : Env) (p : string) :
  lookup env p = None ->
  check env p =
    ([CExists p],
     inr [mk_result p "IntegrityLinter" "Path Error" "Critical" "Path does not exist"]).
Proof.
  intros H. unfold check, os_path_exists, bind, emit, ret. rewrite H. reflexivity.
Qed.

(** ** The per-file check, stage by stage *)

Lemma zero_area_cases img :
  zero_area img = ([], inr true) \/ zero_area img = ([], inr false) \/
  zero_area img = ([], inl (mk_exn IndexError "tuple index out of range")).
Proof.
  unfold zero_area, py_index, bind, ret, raise.
  destruct (Nat.eqb _ 0); [auto|].
  destruct (shape img) as [|s0 [|s1 rest]]; simpl; auto;
  destruct (Nat.eqb s0 0); simpl; auto. destruct (Nat.eqb s1 0); auto.
Qed.

Lemma grayscale_cases p img :
  grayscale_stage p img [] = ([], inr []) \/
  grayscale_stage p img [] = ([], inr [r_gray p]).
Proof.
  unfold grayscale_stage, cv2_split3, ret.
  destruct (andb _ _); [|auto]. destruct (andb _ _); auto.
Qed.

Ltac unfold_cii :=
  unfold check_image_integrity, check_image_integrity_body, os_path_getsize,
    pil_open_verify, cv2_imread, try_except, bind, emit, ret, raise,
    outcome, trace in *.

(** Splits on every answer of the environment the per-file check reads. *)
Ltac case_cii env p :=
  destruct (getsize env p) as [?e|?sz] eqn:?Hs; simpl in *;
  [| destruct (N.eqb _ 0) eqn:?Hn0; simpl in *;
     [| destruct (pil_verify env p) as [?e|] eqn:?Hp; simpl in *;
        [ destruct (pil_handled _) eqn:?Hh; simpl in * |
          destruct (imread env p) as [?e|[?img|]] eqn:?Hi; simpl in *;
          [ destruct (cv2_handled _) eqn:?Hh; simpl in *
          | match goal with
            | |- context [zero_area ?a] =>
                destruct (zero_area_cases a) as [?Hz|[?Hz|?Hz]]; rewrite ?Hz; simpl in *;
                [| destruct (grayscale_cases p a) as [?Hg|?Hg]; rewrite ?Hg; simpl in * |]
            end
          | ] ] ] ];
  try (destruct (is_Exception _) eqn:?Hx); simpl in *.

(** Where an exception that leaves the body of the outer [try] comes from *)
Lemma body_raise_origin env p e :
  outcome (check_image_integrity_body env p) = inl e ->
  getsize env p = inl e \/
  (pil_verify env p = Some e /\ pil_handled (exn_cls e) = false) \/
  (imread env p = inl e /\ cv2_handled (exn_cls e) = false) \/
  exn_cls e = IndexError.
Proof.
  unfold check_image_integrity_body, os_path_getsize, pil_open_verify, cv2_imread,
    try_except, bind, emit, ret, raise, outcome.
  destruct (getsize env p) as [e1|sz]; simpl; [intros H; inversion H; auto|].
  destruct (N.eqb sz 0); simpl; [discriminate|].
  destruct (pil_verify env p) as [e1|] eqn:Hp; simpl.
  - destruct (pil_handled (exn_cls e1)) eqn:Hh; simpl; [discriminate|].
    intros H; inversion H; subst; auto.
  - destruct (imread env p) as [e1|[img|]] eqn:Hi; simpl.
    + destruct (cv2_handled (exn_cls e1)) eqn:Hh; simpl; [discriminate|].
      intros H; inversion H; subst; auto.
    + destruct (zero_area_cases img) as [Hz|[Hz|Hz]]; rewrite Hz; simpl;
        [discriminate| |intros H; inversion H; subst; auto].
      destruct (grayscale_cases p img) as [Hg|Hg]; rewrite Hg; simpl; discriminate.
    + discriminate.
Qed.

(** The outer [except Exception] lets through exactly the exceptions outside
    the [Exception] hierarchy. *)
Lemma cii_raise_base env p e :
  outcome (check_image_integrity env p) = inl e -> is_Exception (exn_cls e) = false.
Proof.
  unfold check_image_integrity, try_except, outcome.
  destruct (check_image_integrity_body env p) as [t [e1|l]]; simpl; [|discriminate].
  destruct (is_Exception (exn_cls e1)) eqn:Hx; simpl; [discriminate|].
  intros H; inversion H; subst; exact Hx.
Qed.

Lemma cii_catch env p e :
  outcome (check_image_integrity_body env p) = inl e ->
  is_Exception (exn_cls e) = true ->
  outcome (check_image_integrity env p) = inr [r_unknown p e].
Proof.
  unfold check_image_integrity, try_except, outcome.
  destruct (check_image_integrity_body env p) as [t [e1|l]]; simpl; [|discriminate].
  intros H Hx; inversion H; subst. rewrite Hx. reflexivity.
Qed.

Lemma cii_propagate env p e :
  outcome (check_image_integrity_body env p) = inl e ->
  is_Exception (exn_cls e) = false ->
  check_image_integrity env p = (trace (check_image_integrity_body env p), inl e).
Proof.
  unfold check_image_integrity, try_except, outcome, trace.
  destruct (check_image_integrity_body env p) as [t [e1|l]]; simpl; [|discriminate].
  intros H Hx; inversion H; subst. rewrite Hx. simpl. rewrite app_nil_r. reflexivity.
Qed.

(** Without interrupts, the per-file check always returns a list. *)
Lemma cii_returns env p :
  no_interrupts env -> outcome (check_image_integrity env p) = inr (cii_res env p).
Proof.
  intros Hn. unfold cii_res.
  destruct (outcome (check_image_integrity env p)) as [e|l] eqn:Ho; [|reflexivity].
  exfalso. pose proof (cii_raise_base _ _ _ Ho) as Hb.
  revert Ho Hb. unfold check_image_integrity, try_except, outcome.
  destruct (check_image_integrity_body env p) as [t [e1|l]] eqn:Hbody; simpl;
    [|discriminate].
  assert (Ho1 : outcome (check_image_integrity_body env p) = inl e1)
    by (rewrite Hbody; reflexivity).
  destruct (is_Exception (exn_cls e1)) eqn:Hx; simpl; [discriminate|].
  intros H Hb; inversion H; subst.
  destruct (body_raise_origin _ _ _ Ho1) as [H1|[[H1 _]|[[H1 _]|H1]]].
  - rewrite (Hn p e) in Hx; auto. discriminate.
  - rewrite (Hn p e) in Hx; auto. discriminate.
  - rewrite (Hn p e) in Hx; auto. discriminate.
  - rewrite H1 in Hx. discriminate.
Qed.

(** Every query of the per-file check is about its own path. *)
Lemma cii_trace_paths env p c :
  In c (trace (check_image_integrity env p)) -> per_file_path c = Some p.
Proof.
  unfold_cii. case_cii env p.
  all: intros H; repeat (destruct H as [H|H]; [subst; reflexivity|]); contradiction.
Qed.

(** The per-file check starts with the size query. *)
Lemma cii_trace_head env p :
  exists t, trace (check_image_integrity env p) = CGetSize p :: t.
Proof.
  unfold_cii. case_cii env p. all: eexists; reflexivity.
Qed.

(** ** C9 *)

(** C9: whatever the file and the libraries answer, a list returned by
    [check_image_integrity] holds at most one finding. *)
Theorem C9_at_most_one_finding (env : Env) (p : string) (l : list LintResult) :
  outcome (check_image_integrity env p) = inr l -> length l <= 1.
Proof.
  unfold_cii. case_cii env p.
  all: intros H; inversion H; subst; simpl; auto.
Qed.

(** ** C3 *)

(** C3 (as stated: no exception ever leaves [check_image_integrity]) fails:
    a [KeyboardInterrupt] raised while OpenCV decodes the file is not an
    [Exception] and propagates out of the check. *)
Lemma C3_counterexample :
  outcome (check_image_integrity interrupted_env "data/valid.jpg") =
    inl (mk_exn KeyboardInterrupt "").
Proof. vm_compute. reflexivity. Qed.

(** C3 (amended): no exception of the [Exception] hierarchy leaves
    [check_image_integrity]; an exception leaving the body of its outer
    [try] was not handled by a stage (it comes from the size query, from
    PIL outside [IOError]/[SyntaxError]/[UnidentifiedImageError], from
    OpenCV outside [cv2.error], or from indexing the shape), and if it is an
    [Exception] it becomes exactly one Critical [Unknown Error] finding
    carrying [str(e)]; if it is not an [Exception] ([KeyboardInterrupt],
    [SystemExit]) it propagates unchanged, after the calls the body made. *)
Theorem C3_unknown_error_boundary (env : Env) (p : string) :
  (forall e, outcome (check_image_integrity env p) = inl e ->
             is_Exception (exn_cls e) = false) /\
  (forall e, outcome (check_image_integrity_body env p) = inl e ->
     (getsize env p = inl e \/
      (pil_verify env p = Some e /\ pil_handled (exn_cls e) = false) \/
      (imread env p = inl e /\ cv2_handled (exn_cls e) = false) \/
      exn_cls e = IndexError) /\
     (is_Exception (exn_cls e) = true ->
      outcome (check_image_integrity env p) =
        inr [mk_result p "IntegrityLinter" "Unknown Error" "Critical"
               ("An unexpected error occurred: " ++ exn_str e)]) /\
     (is_Exception (exn_cls e) = false ->
      check_image_integrity env p = (trace (check_image_integrity_body env p), inl e))).
Proof.
  split.
  - intros e. apply cii_raise_base.
  - intros e H. split; [|split].
    + exact (body_raise_origin _ _ _ H).
    + intros Hx. exact (cii_catch _ _ _ H Hx).
    + intros Hx. exact (cii_propagate _ _ _ H Hx).
Qed.

(** ** C4 *)

(** C4: a file of non-zero size that PIL verifies and OpenCV decodes to an
    [h x w x 3] array ([h], [w] non-zero) whose three split planes are
    equal yields exactly one Warning [Grayscale as RGB] finding, after the
    three queries of stages 1-3.  Conversely a [Grayscale as RGB] finding
    is only ever returned when stages 1-3 all passed, and then alone. *)
Theorem C4_grayscale_as_rgb (env : Env) (p : string) (sz : N) (img : ndarray) (h w : nat) :
  getsize env p = inr sz -> sz <> 0%N ->
  pil_verify env p = None ->
  imread env p = inr (Some img) ->
  shape img = [h; w; 3] -> h <> 0 -> w <> 0 ->
  plane 0 img = plane 1 img -> plane 0 img = plane 2 img ->
  check_image_integrity env p =
    ([CGetSize p; CPilVerify p; CImread p],
     inr [mk_result p "IntegrityLinter" "Grayscale as RGB" "Warning"
            "Image is encoded as RGB but all pixels are grayscale (R=G=B)"])
  /\ (forall env' q l f,
        outcome (check_image_integrity env' q) = inr l -> In f l ->
        issue_type f = "Grayscale as RGB" ->
        l = [f] /\
        exists sz' img', getsize env' q = inr sz' /\ sz' <> 0%N /\
          pil_verify env' q = None /\ imread env' q = inr (Some img') /\
          zero_area img' = ([], inr false)).
Proof.
  intros Hs Hsz Hp Hi Hsh Hh Hw Hbg Hbr. split.
  - unfold_cii. rewrite Hs, Hp, Hi.
    destruct (N.eqb_spec sz 0) as [E|_]; [contradiction|]. simpl.
    assert (Hz : zero_area img = ([], inr false)).
    { unfold zero_area, py_index, ndarray_size, bind, ret. rewrite Hsh. simpl.
      destruct (Nat.eqb_spec (h * (w * 3)) 0) as [E|_]; [lia|].
      destruct (Nat.eqb_spec h 0) as [E|_]; [lia|].
      destruct (Nat.eqb_spec w 0) as [E|_]; [lia|]. reflexivity. }
    rewrite Hz. simpl.
    unfold grayscale_stage, cv2_split3, array_equal, ret. rewrite Hsh. simpl.
    rewrite <- Hbg, <- Hbr.
    destruct (list_eq_dec Z.eq_dec (plane 0 img) (plane 0 img)) as [_|E];
      [|contradiction]. reflexivity.
  - intros env' q l f. unfold_cii. case_cii env' q.
    all: intros H Hin Hty; inversion H; subst;
      repeat (destruct Hin as [Hin|Hin]; [subst; try discriminate|]); try contradiction.
    split; [reflexivity|].
    exists sz0, img0. repeat split; auto.
    apply N.eqb_neq. assumption.
Qed.

(** ** C8 *)

(** C8: a file that passes all four stages (non-zero size, PIL verifies,
    OpenCV decodes to an array of non-zero size and non-zero first two
    dimensions, and it is not a three-channel array with three equal
    planes) yields the explicit empty list. *)
Theorem C8_clean_file_empty_list (env : Env) (p : string) (sz : N) (img : ndarray) (h w : nat) :
  getsize env p = inr sz -> sz <> 0%N ->
  pil_verify env p = None ->
  imread env p = inr (Some img) ->
  ndarray_size img <> 0 ->
  nth_error (shape img) 0 = Some h -> h <> 0 ->
  nth_error (shape img) 1 = Some w -> w <> 0 ->
  ~ (length (shape img) = 3 /\ nth 2 (shape img) 0 = 3 /\
     plane 0 img = plane 1 img /\ plane 0 img = plane 2 img) ->
  check_image_integrity env p = ([CGetSize p; CPilVerify p; CImread p], inr []).
Proof.
  intros Hs Hsz Hp Hi Hn H0 Hh H1 Hw Hng.
  unfold_cii. rewrite Hs, Hp, Hi.
  destruct (N.eqb_spec sz 0) as [E|_]; [contradiction|]. simpl.
  assert (Hz : zero_area img = ([], inr false)).
  { unfold zero_area, py_index, bind, ret. rewrite H0, H1.
    destruct (Nat.eqb_spec (ndarray_size img) 0) as [E|_]; [contradiction|].
    destruct (Nat.eqb_spec h 0) as [E|_]; [contradiction|].
    destruct (Nat.eqb_spec w 0) as [E|_]; [contradiction|]. reflexivity. }
  rewrite Hz. simpl.
  unfold grayscale_stage, cv2_split3, array_equal, ret.
  destruct (Nat.eqb_spec (length (shape img)) 3) as [E3|_]; [|reflexivity].
  destruct (Nat.eqb_spec (nth 2 (shape img) 0) 3) as [E2|_]; [|reflexivity].
  simpl.
  destruct (list_eq_dec Z.eq_dec (plane 0 img) (plane 1 img)) as [Ebg|_]; [|reflexivity].
  destruct (list_eq_dec Z.eq_dec (plane 0 img) (plane 2 img)) as [Ebr|_]; [|reflexivity].
  exfalso. apply Hng. auto.
Qed.

(** ** C7 *)

(** C7: on a path that resolves to a regular file, [check] delegates to
    [check_image_integrity] when the lower-cased path ends with one of the
    six extensions, and otherwise returns exactly one Critical
    [No Images Found] finding whose message renders the extension set. *)
Theorem C7_single_file (env : Env) (p nm : string) :
  lookup env p = Some (File nm) ->
  (has_supported_ext p = true <->
   exists ext, In ext [".jpg"; ".jpeg"; ".png"; ".bmp"; ".tiff"; ".webp"] /\
               endswith (lower p) ext = true) /\
  (has_supported_ext p = true ->
   check env p =
     (CExists p :: CIsFile p :: trace (check_image_integrity env p),
      outcome (check_image_integrity env p))) /\
  (has_supported_ext p = false ->
   check env p =
     ([CExists p; CIsFile p],
      inr [mk_result p "IntegrityLinter" "No Images Found" "Critical"
             ("File extension not supported. Supported: " ++ py_set_repr (set_order env))])).
Proof.
  intros Hl. split; [|split].
  - unfold has_supported_ext. apply existsb_exists.
  - intros He. unfold check, os_path_exists, os_path_isfile, bind, emit, ret.
    rewrite Hl, He. simpl.
    destruct (check_image_integrity env p) as [t r]. reflexivity.
  - intros He. unfold check, os_path_exists, os_path_isfile, bind, emit, ret.
    rewrite Hl, He. reflexivity.
Qed.

(** ** The directory walk *)

(** Induction on directory trees, with the hypothesis on every child *)
Definition node_ind' (P : node -> Prop)
  (HF : forall nm, P (File nm))
  (HD : forall nm cs, Forall P cs -> P (Dir nm cs)) : forall n, P n :=
  fix f (n : node) : P n :=
    match n with
    | File nm => HF nm
    | Dir nm cs =>
        HD nm cs ((fix g (cs : list node) : Forall P cs :=
                     match cs with
                     | [] => Forall_nil P
                     | c :: cs' => Forall_cons c (f c) (g cs')
                     end) cs)
    end.

(** [check] on a directory: three queries, then the two loops *)
Lemma check_dir env d nm cs :
  lookup env d = Some (Dir nm cs) ->
  check env d =
    (CExists d :: CIsFile d :: CWalk d ::
       trace (scan_walk env (walk_node d (Dir nm cs)) (false, [])),
     match outcome (scan_walk env (walk_node d (Dir nm cs)) (false, [])) with
     | inl e => inl e
     | inr acc => inr (if fst acc then snd acc else [r_no_images env d])
     end).
Proof.
  intros Hl. unfold check, os_path_exists, os_path_isfile, os_walk, bind, emit, ret.
  rewrite Hl. cbn -[walk_node scan_walk].
  destruct (scan_walk env (walk_node d (Dir nm cs)) (false, [])) as [t [e|[b res]]];
    cbn -[walk_node scan_walk]; [reflexivity|].
  destruct b; cbn; rewrite app_nil_r; reflexivity.
Qed.

Lemma check_missing env p :
  lookup env p = None -> check env p = ([CExists p], inr [r_path_error p]).
Proof. intros H. unfold check, os_path_exists, bind, emit, ret. rewrite H. reflexivity. Qed.

Lemma check_file env p nm :
  lookup env p = Some (File nm) ->
  check env p =
    if has_supported_ext p
    then (CExists p :: CIsFile p :: trace (check_image_integrity env p),
          outcome (check_image_integrity env p))
    else ([CExists p; CIsFile p], inr [r_unsupported env p]).
Proof.
  intros Hl. unfold check, os_path_exists, os_path_isfile, bind, emit, ret.
  rewrite Hl. simpl. destruct (has_supported_ext p); [|reflexivity].
  destruct (check_image_integrity env p) as [t r]. reflexivity.
Qed.

Lemma scan_files_none env root files acc :
  (forall f, In f files -> eligible f = false) ->
  scan_files env root files acc = ([], inr acc).
Proof.
  revert acc. induction files as [|f fs IH]; intros acc H; simpl; [reflexivity|].
  assert (Hf : eligible f = false) by (apply H; left; reflexivity).
  unfold eligible in Hf.
  destruct (is_skipped f); simpl in Hf.
  - apply IH. intros g Hg. apply H. right. exact Hg.
  - rewrite Hf. apply IH. intros g Hg. apply H. right. exact Hg.
Qed.

Lemma scan_walk_none env entries acc :
  (forall r fs f, In (r, fs) entries -> In f fs -> eligible f = false) ->
  scan_walk env entries acc = ([], inr acc).
Proof.
  revert acc. induction entries as [|[r fs] es IH]; intros acc H; simpl; [reflexivity|].
  rewrite (scan_files_none env r fs acc).
  - simpl. rewrite IH; [reflexivity|]. intros r' fs' f Hin Hf. apply (H r' fs' f); [right|]; assumption.
  - intros f Hf. apply (H r fs f); [left; reflexivity | exact Hf].
Qed.

(** ** C5 *)

(** C5: on a directory in whose whole tree no file is eligible (each is
    hidden, named [Thumbs.db], or has an extension outside the list), however
    many files there are, [check] runs no per-file check and returns exactly
    one Critical [No Images Found] finding for the directory. *)
Theorem C5_no_eligible_files (env : Env) (d nm : string) (cs : list node) :
  lookup env d = Some (Dir nm cs) ->
  (forall r fs f, In (r, fs) (walk_node d (Dir nm cs)) -> In f fs -> eligible f = false) ->
  check env d =
    ([CExists d; CIsFile d; CWalk d],
     inr [mk_result d "IntegrityLinter" "No Images Found" "Critical"
            ("No image files found with extensions " ++ py_set_repr (set_order env))]).
Proof.
  intros Hl Hn. rewrite (check_dir env d nm cs Hl).
  rewrite (scan_walk_none env (walk_node d (Dir nm cs)) (false, []) Hn). reflexivity.
Qed.

Lemma file_names_prune cs :
  file_names (prune_children prune cs) =
  filter (fun f => negb (is_skipped f)) (file_names cs).
Proof.
  induction cs as [|[f|nm' cs0] cs IH]; simpl; [reflexivity| |exact IH].
  destruct (is_skipped f); simpl; rewrite IH; reflexivity.
Qed.

(** Pruning the tree prunes each entry of the walk, and keeps its roots. *)
Lemma walk_prune :
  forall n top, walk_node top (prune n) = map keep_visible (walk_node top n).
Proof.
  induction n as [nm|nm cs IHcs] using node_ind'; intros top; [reflexivity|].
  simpl. rewrite file_names_prune. f_equal.
  induction cs as [|[f|nm' cs0] cs IH]; cbn [walk_subdirs prune_children prune];
    [reflexivity| |].
  - inversion IHcs as [|? ? Hd Hrest]; subst.
    destruct (is_skipped f); simpl; apply IH; exact Hrest.
  - inversion IHcs as [|? ? Hd Hrest]; subst.
    change (Dir nm' (prune_children prune cs0)) with (prune (Dir nm' cs0)).
    rewrite map_app, (Hd (path_join top nm')), (IH Hrest). reflexivity.
Qed.

(** The file loop ignores skipped names entirely (no query, no state). *)
Lemma scan_files_visible env root files acc :
  scan_files env root (filter (fun f => negb (is_skipped f)) files) acc =
  scan_files env root files acc.
Proof.
  revert acc. induction files as [|f fs IH]; intros acc; simpl; [reflexivity|].
  destruct (is_skipped f) eqn:Hs; simpl; [apply IH|].
  rewrite Hs. destruct (has_supported_ext f); [|apply IH].
  unfold bind. destruct (check_image_integrity env (path_join root f)) as [t [e|l]];
    [reflexivity|]. rewrite IH. reflexivity.
Qed.

Lemma scan_walk_visible env entries acc :
  scan_walk env (map keep_visible entries) acc = scan_walk env entries acc.
Proof.
  revert acc. induction entries as [|[r fs] es IH]; intros acc; simpl; [reflexivity|].
  rewrite scan_files_visible. unfold bind.
  destruct (scan_files env r fs acc) as [t [e|a]]; [reflexivity|]. rewrite IH. reflexivity.
Qed.

(** Repointing [d] does not change what the per-file queries answer. *)
Lemma scan_walk_with_lookup env d n entries acc :
  scan_walk (with_lookup env d n) entries acc = scan_walk env entries acc.
Proof.
  revert acc. induction entries as [|[r fs] es IH]; intros acc; simpl; [reflexivity|].
  assert (Hf : forall files acc,
             scan_files (with_lookup env d n) r files acc = scan_files env r files acc).
  { induction files as [|f fs' IHf]; intros acc'; simpl; [reflexivity|].
    destruct (is_skipped f); [apply IHf|]. destruct (has_supported_ext f); [|apply IHf].
    change (check_image_integrity (with_lookup env d n) (path_join r f))
      with (check_image_integrity env (path_join r f)).
    unfold bind. destruct (check_image_integrity env (path_join r f)) as [t [e|l]];
      [reflexivity|]. rewrite IHf. reflexivity. }
  rewrite Hf. unfold bind.
  destruct (scan_files env r fs acc) as [t [e|a]]; [reflexivity|]. rewrite IH. reflexivity.
Qed.

(** Per-file queries of the loops are about eligible files of the walk. *)
Lemma scan_files_trace env root files acc c q :
  In c (trace (scan_files env root files acc)) -> per_file_path c = Some q ->
  exists f, In f files /\ eligible f = true /\ q = path_join root f.
Proof.
  revert acc. induction files as [|f fs IH]; intros acc; simpl; [contradiction|].
  intros Hin Hc. unfold eligible.
  destruct (is_skipped f) eqn:Hs; simpl.
  - destruct (IH acc Hin Hc) as [g [Hg [He Hq]]]. exists g. auto.
  - destruct (has_supported_ext f) eqn:Hx.
    + apply in_trace_bind in Hin as [Hin|[l [_ Hin]]].
      * exists f. rewrite (cii_trace_paths _ _ _ Hin) in Hc. injection Hc as <-.
        rewrite Hs, Hx. auto.
      * destruct (IH _ Hin Hc) as [g [Hg [He Hq]]]. exists g. auto.
    + destruct (IH acc Hin Hc) as [g [Hg [He Hq]]]. exists g. auto.
Qed.

Lemma scan_walk_trace env entries acc c q :
  In c (trace (scan_walk env entries acc)) -> per_file_path c = Some q ->
  exists r fs f, In (r, fs) entries /\ In f fs /\ eligible f = true /\ q = path_join r f.
Proof.
  revert acc. induction entries as [|[r fs] es IH]; intros acc; simpl; [contradiction|].
  intros Hin Hc. apply in_trace_bind in Hin as [Hin|[a [_ Hin]]].
  - destruct (scan_files_trace _ _ _ _ _ _ Hin Hc) as [f [Hf [He Hq]]].
    exists r, fs, f. auto.
  - destruct (IH _ Hin Hc) as [r' [fs' [f [H1 [H2 [H3 H4]]]]]].
    exists r', fs', f. auto.
Qed.

(** ** C2 *)

(** C2 (as stated, for a single-file path as well) fails: given the path
    of a hidden empty image directly, [check] delegates it to
    [check_image_integrity], which reports it. *)
Lemma C2_counterexample :
  outcome (check sample_env "data/.hidden.jpg") =
    inr [mk_result "data/.hidden.jpg" "IntegrityLinter" "Empty File" "Critical"
           "File size is 0 bytes"].
Proof. vm_compute. reflexivity. Qed.

(** C2 (amended): in a directory scan, hidden files and [Thumbs.db] play no
    part: [check] gives the same trace and the same result when they are
    removed from the tree (so they contribute no finding and do not count
    toward "image found"), and every per-file query it makes is about a
    file of the walk whose name is neither hidden nor [Thumbs.db].  A path
    naming a file is not filtered: whatever its name, [check] delegates it
    to [check_image_integrity] when its extension is supported and reports
    an unsupported extension otherwise. *)
Theorem C2_directory_skips_hidden (env : Env) :
  (forall d nm cs, lookup env d = Some (Dir nm cs) ->
   check env d = check (with_lookup env d (prune (Dir nm cs))) d /\
   (forall c q, In c (trace (check env d)) -> per_file_path c = Some q ->
      exists r fs f, In (r, fs) (walk_node d (Dir nm cs)) /\ In f fs /\
        is_skipped f = false /\ has_supported_ext f = true /\ q = path_join r f)) /\
  (forall p nm, lookup env p = Some (File nm) ->
   check env p =
     if has_supported_ext p
     then (CExists p :: CIsFile p :: trace (check_image_integrity env p),
           outcome (check_image_integrity env p))
     else ([CExists p; CIsFile p], inr [r_unsupported env p])).
Proof.
  split; [|exact (check_file env)].
  intros d nm cs Hl. split.
  - assert (Hl' : lookup (with_lookup env d (prune (Dir nm cs))) d =
                  Some (Dir nm (prune_children prune cs))).
    { simpl. rewrite String.eqb_refl. reflexivity. }
    rewrite (check_dir env d nm cs Hl), (check_dir _ d nm _ Hl').
    change (Dir nm (prune_children prune cs)) with (prune (Dir nm cs)).
    rewrite walk_prune, scan_walk_with_lookup, scan_walk_visible. reflexivity.
  - intros c q. rewrite (check_dir env d nm cs Hl). unfold trace at 1; cbn [fst].
    intros [<-|[<-|[<-|Hin]]] Hc; try discriminate.
    destruct (scan_walk_trace _ _ _ _ _ Hin Hc) as [r [fs [f [H1 [H2 [H3 H4]]]]]].
    unfold eligible in H3. apply andb_true_iff in H3 as [H3 H5].
    apply negb_true_iff in H3. exists r, fs, f. auto.
Qed.

(** ** The walk without interrupts *)
Lemma outcome_bind_inr {A B} (m : M A) (k : A -> M B) a :
  outcome m = inr a -> outcome (bind m k) = outcome (k a).
Proof. intros H. rewrite (bind_inr m k a H). reflexivity. Qed.
Lemma scan_files_outcome env root files b acc :
  no_interrupts env ->
  outcome (scan_files env root files (b, acc)) =
    inr (b || existsb eligible files,
         acc ++ flat_map (fun f => cii_res env (path_join root f)) (filter eligible files)).
Proof.
  intros Hn. revert b acc. induction files as [|f fs IH]; intros b acc; simpl.
  - rewrite orb_false_r, app_nil_r. reflexivity.
  - unfold eligible at 1 3. destruct (is_skipped f) eqn:Hs; simpl; [apply IH|].
    destruct (has_supported_ext f) eqn:Hx; simpl; [|apply IH].
    rewrite (outcome_bind_inr _ _ _ (cii_returns env (path_join root f) Hn)).
    rewrite IH. simpl. rewrite orb_true_r, app_assoc. reflexivity.
Qed.
Lemma scan_walk_outcome env entries b acc :
  no_interrupts env ->
  outcome (scan_walk env entries (b, acc)) =
    inr (b || existsb (fun e => existsb eligible (snd e)) entries,
         acc ++ flat_map (fun e => flat_map (fun f => cii_res env (path_join (fst e) f))
                                              (filter eligible (snd e))) entries).
Proof.
  intros Hn. revert b acc. induction entries as [|[r fs] es IH]; intros b acc; simpl.
  - rewrite orb_false_r, app_nil_r. reflexivity.
  - rewrite (outcome_bind_inr _ _ _ (scan_files_outcome env r fs b acc Hn)).
    rewrite IH, orb_assoc, app_assoc. reflexivity.
Qed.
Lemma scan_files_calls env root files acc f :
  no_interrupts env -> In f files -> eligible f = true ->
  In (CGetSize (path_join root f)) (trace (scan_files env root files acc)).
Proof.
  intros Hn. revert acc. induction files as [|g fs IH]; intros acc Hin He; [contradiction|].
  simpl. destruct Hin as [->|Hin].
  - unfold eligible in He. apply andb_true_iff in He as [Hs Hx].
    apply negb_true_iff in Hs. rewrite Hs, Hx.
    rewrite (bind_inr _ _ _ (cii_returns env (path_join root f) Hn)).
    destruct (cii_trace_head env (path_join root f)) as [t Ht]. unfold trace at 1.
    cbn [fst]. rewrite Ht. left. reflexivity.
  - destruct (is_skipped g); [apply IH; assumption|].
    destruct (has_supported_ext g); [|apply IH; assumption].
    rewrite (bind_inr _ _ _ (cii_returns env (path_join root g) Hn)).
    unfold trace at 1. cbn [fst]. apply in_or_app. right. apply IH; assumption.
Qed.
Lemma scan_walk_calls env entries acc r fs f :
  no_interrupts env -> In (r, fs) entries -> In f fs -> eligible f = true ->
  In (CGetSize (path_join r f)) (trace (scan_walk env entries acc)).
Proof.
  intros Hn. revert acc. induction entries as [|[r' fs'] es IH]; intros acc Hin Hf He;
    [contradiction|].
  simpl. destruct acc as [b a].
  rewrite (bind_inr _ _ _ (scan_files_outcome env r' fs' b a Hn)).
  unfold trace at 1. cbn [fst]. apply in_or_app.
  destruct Hin as [Hin|Hin].
  - injection Hin as -> ->. left. apply scan_files_calls; assumption.
  - right. apply IH; assumption.
Qed.
Lemma walk_subdirs_enters top cs sub scs x :
  In (Dir sub scs) cs -> In x (walk_node (path_join top sub) (Dir sub scs)) ->
  In x (walk_subdirs walk_node top cs).
Proof.
  intros H Hx. induction cs as [|c cs IH]; [contradiction|].
  destruct H as [->|H].
  - cbn [walk_subdirs]. apply in_or_app. left. exact Hx.
  - destruct c as [f|nm' cs']; cbn [walk_subdirs]; [apply IH; exact H|].
    apply in_or_app. right. apply IH. exact H.
Qed.
Lemma walk_subdir_at top n r sub scs :
  subdir_at top n r (Dir sub scs) -> In (r, file_names scs) (walk_node top n).
Proof.
  remember (Dir sub scs) as m eqn:Hm. intros H. induction H as [top n|top nm cs s' scs' r m Hin H IH].
  - subst. simpl. left. reflexivity.
  - cbn [walk_node]. right. exact (walk_subdirs_enters _ _ _ _ _ Hin (IH Hm)).
Qed.
Lemma in_file_names f cs : In (File f) cs -> In f (file_names cs).
Proof.
  intros H. unfold file_names. apply in_flat_map. exists (File f). split; [exact H|].
  left. reflexivity.
Qed.
Lemma cii_issue_types env q x :
  In x (cii_res env q) -> issue_type x <> "No Images Found".
Proof.
  unfold cii_res. unfold_cii. case_cii env q.
  all: simpl; intros H; repeat (destruct H as [H|H]; [subst; discriminate|]); contradiction.
Qed.

(** ** C10 *)

(** C10: the skip rule looks at the base name only.  An eligible file
    (hidden neither by its own name nor named [Thumbs.db]) in any directory
    of the scanned tree, at any depth and whatever the names of the
    directories on the way (also hidden ones such as [.cache]), is checked:
    its size is queried, its findings are part of the result, and the
    result is not [No Images Found] (provided no interrupt aborts the
    scan). *)
Theorem C10_hidden_directory_descended (env : Env) (d nm : string) (cs : list node)
  (r sub : string) (sub_cs : list node) (f : string) :
  no_interrupts env ->
  lookup env d = Some (Dir nm cs) ->
  subdir_at d (Dir nm cs) r (Dir sub sub_cs) -> In (File f) sub_cs ->
  is_skipped f = false -> has_supported_ext f = true ->
  In (CGetSize (path_join r f)) (trace (check env d)) /\
  exists l, outcome (check env d) = inr l /\
    incl (cii_res env (path_join r f)) l /\
    (forall x, In x l -> issue_type x <> "No Images Found").
Proof.
  intros Hn Hl Hsub Hf Hs Hx.
  assert (Hw := walk_subdir_at d (Dir nm cs) r sub sub_cs Hsub).
  assert (Hfn := in_file_names f sub_cs Hf).
  assert (He : eligible f = true) by (unfold eligible; rewrite Hs, Hx; reflexivity).
  rewrite (check_dir env d nm cs Hl). split.
  - unfold trace at 1. cbn [fst]. right. right. right.
    eapply scan_walk_calls; eassumption.
  - unfold outcome at 1. cbn [snd]. rewrite (scan_walk_outcome env _ false [] Hn).
    assert (Hex : existsb (fun e => existsb eligible (snd e)) (walk_node d (Dir nm cs)) = true).
    { apply existsb_exists. eexists. split; [exact Hw|].
      apply existsb_exists. exists f. auto. }
    rewrite Hex. cbn -[walk_node]. eexists. split; [reflexivity|]. split.
    + intros x Hin. apply in_flat_map. eexists. split; [exact Hw|]. simpl.
      apply in_flat_map. exists f. split; [apply filter_In; auto | exact Hin].
    + intros x Hin. apply in_flat_map in Hin as [e [_ Hin]].
      apply in_flat_map in Hin as [g [_ Hin]]. exact (cii_issue_types _ _ _ Hin).
Qed.

(** ** Witnesses: each theorem applied to the sample dataset *)

Lemma sample_env_no_interrupts : no_interrupts sample_env.
Proof.
  intros q e [H|[H|H]]; simpl in H.
  - destruct (String.eqb q "data/empty.jpg"); [discriminate|].
    destruct (String.eqb q "data/.hidden.jpg"); discriminate.
  - discriminate.
  - destruct (String.eqb q "data/.cache/gray.JPG"); discriminate.
Qed.

Lemma C1_witness :
  getsize sample_env "data/empty.jpg" = inr 0%N /\
  check_image_integrity sample_env "data/empty.jpg" =
    ([CGetSize "data/empty.jpg"],
     inr [mk_result "data/empty.jpg" "IntegrityLinter" "Empty File" "Critical"
            "File size is 0 bytes"]).
Proof.
  split; [reflexivity|].
  exact (proj1 (C1_empty_file_short_circuit sample_env "data/empty.jpg" eq_refl)).
Defined.

Lemma C2_witness :
  lookup sample_env "data" = Some (Dir "data" data_children) /\
  check sample_env "data" =
    check (with_lookup sample_env "data" (prune (Dir "data" data_children))) "data" /\
  check sample_env "data/.hidden.jpg" =
    (CExists "data/.hidden.jpg" :: CIsFile "data/.hidden.jpg" ::
       trace (check_image_integrity sample_env "data/.hidden.jpg"),
     outcome (check_image_integrity sample_env "data/.hidden.jpg")).
Proof.
  split; [reflexivity|]. split.
  - exact (proj1 (proj1 (C2_directory_skips_hidden sample_env) "data" "data" data_children
                    eq_refl)).
  - exact (proj2 (C2_directory_skips_hidden sample_env) "data/.hidden.jpg" ".hidden.jpg"
             eq_refl).
Defined.

Lemma C3_witness :
  check_image_integrity interrupted_env "data/valid.jpg" =
    (trace (check_image_integrity_body interrupted_env "data/valid.jpg"),
     inl (mk_exn KeyboardInterrupt "")).
Proof.
  exact (proj2 (proj2 (proj2 (C3_unknown_error_boundary interrupted_env "data/valid.jpg")
                         (mk_exn KeyboardInterrupt "")
                         ltac:(vm_compute; reflexivity)))
           eq_refl).
Defined.

Lemma C4_witness :
  check_image_integrity sample_env "data/.cache/gray.JPG" =
    ([CGetSize "data/.cache/gray.JPG"; CPilVerify "data/.cache/gray.JPG";
      CImread "data/.cache/gray.JPG"],
     inr [mk_result "data/.cache/gray.JPG" "IntegrityLinter" "Grayscale as RGB" "Warning"
            "Image is encoded as RGB but all pixels are grayscale (R=G=B)"]).
Proof.
  apply (proj1 (C4_grayscale_as_rgb sample_env "data/.cache/gray.JPG" 2048%N img_gray 2 2
                  eq_refl ltac:(discriminate) eq_refl eq_refl eq_refl
                  ltac:(discriminate) ltac:(discriminate) eq_refl eq_refl)).
Defined.

Lemma C5_witness :
  check sample_env "docs" =
    ([CExists "docs"; CIsFile "docs"; CWalk "docs"],
     inr [mk_result "docs" "IntegrityLinter" "No Images Found" "Critical"
            ("No image files found with extensions " ++ py_set_repr supported_extensions)]).
Proof.
  apply (C5_no_eligible_files sample_env "docs" "docs" docs_children); [reflexivity|].
  intros r fs f Hin Hf. simpl in Hin.
  repeat (destruct Hin as [Hin|Hin]; [injection Hin as <- <-|]); [..|contradiction];
    simpl in Hf; repeat (destruct Hf as [<-|Hf]; [reflexivity|]); contradiction.
Defined.

Lemma C6_witness :
  check sample_env "missing.png" =
    ([CExists "missing.png"],
     inr [mk_result "missing.png" "IntegrityLinter" "Path Error" "Critical"
            "Path does not exist"]).
Proof. apply C6_missing_path. reflexivity. Defined.

Lemma C7_witness :
  check sample_env "data/valid.jpg" =
    (CExists "data/valid.jpg" :: CIsFile "data/valid.jpg" ::
       trace (check_image_integrity sample_env "data/valid.jpg"),
     outcome (check_image_integrity sample_env "data/valid.jpg")).
Proof.
  apply (proj1 (proj2 (C7_single_file sample_env "data/valid.jpg" "valid.jpg" eq_refl))).
  reflexivity.
Defined.

Lemma C8_witness :
  check_image_integrity sample_env "data/valid.jpg" =
    ([CGetSize "data/valid.jpg"; CPilVerify "data/valid.jpg"; CImread "data/valid.jpg"],
     inr []).
Proof.
  apply (C8_clean_file_empty_list sample_env "data/valid.jpg" 2048%N img_red 2 2);
    try reflexivity; try discriminate.
  intros [_ [_ [_ H]]]. discriminate H.
Defined.

Lemma C9_witness :
  length [mk_result "data/empty.jpg" "IntegrityLinter" "Empty File" "Critical"
            "File size is 0 bytes"] <= 1.
Proof. apply (C9_at_most_one_finding sample_env "data/empty.jpg"). reflexivity. Defined.

Lemma C10_witness :
  In (CGetSize "data/.cache/gray.JPG") (trace (check sample_env "data")) /\
  In (CGetSize "deep/x/.cache/img.jpg") (trace (check deep_env "deep")).
Proof.
  split.
  - apply (proj1 (C10_hidden_directory_descended sample_env "data" "data" data_children
                    "data/.cache" ".cache" [File "gray.JPG"] "gray.JPG"
                    sample_env_no_interrupts eq_refl
                    ltac:(eapply subdir_below; [simpl; tauto | apply subdir_here])
                    ltac:(simpl; tauto) eq_refl eq_refl)).
  - apply (proj1 (C10_hidden_directory_descended deep_env "deep" "deep"
                    [Dir "x" [Dir ".cache" [File "img.jpg"]]]
                    "deep/x/.cache" ".cache" [File "img.jpg"] "img.jpg"
                    sample_env_no_interrupts eq_refl
                    ltac:(eapply subdir_below; [simpl; tauto|];
                          eapply subdir_below; [simpl; tauto | apply subdir_here])
                    ltac:(simpl; tauto) eq_refl eq_refl)).
Defined.

(** ** Further properties of the code *)

(** When the file is not empty and PIL fails with [IOError], [SyntaxError]
    or [UnidentifiedImageError], the check stops there: it has queried the
    size and PIL only (OpenCV is never called) and returns one Critical
    [Corrupted Image (PIL)] finding carrying [str(e)]. *)
Theorem cii_pil_failure (env : Env) (p : string) (sz : N) (e : exn) :
  getsize env p = inr sz -> sz <> 0%N ->
  pil_verify env p = Some e -> pil_handled (exn_cls e) = true ->
  check_image_integrity env p =
    ([CGetSize p; CPilVerify p],
     inr [mk_result p "IntegrityLinter" "Corrupted Image (PIL)" "Critical"
            ("PIL cannot open/verify image: " ++ exn_str e)]).
Proof.
  intros Hs Hsz Hp Hh. apply N.eqb_neq in Hsz.
  unfold_cii. rewrite Hs. simpl. rewrite Hsz, Hp. simpl. rewrite Hh. reflexivity.
Qed.

(** When the file is not empty and PIL verifies it, an OpenCV failure ends
    the check with one Critical [Corrupted Image (OpenCV)] finding: with
    [str(e)] for a [cv2.error], with "(returned None)" when [cv2.imread]
    returns [None]. *)
Theorem cii_opencv_failure (env : Env) (p : string) (sz : N) :
  getsize env p = inr sz -> sz <> 0%N -> pil_verify env p = None ->
  (forall e, imread env p = inl e -> cv2_handled (exn_cls e) = true ->
     check_image_integrity env p =
       ([CGetSize p; CPilVerify p; CImread p],
        inr [mk_result p "IntegrityLinter" "Corrupted Image (OpenCV)" "Critical"
               ("OpenCV cannot decode image: " ++ exn_str e)])) /\
  (imread env p = inr None ->
     check_image_integrity env p =
       ([CGetSize p; CPilVerify p; CImread p],
        inr [mk_result p "IntegrityLinter" "Corrupted Image (OpenCV)" "Critical"
               "OpenCV cannot decode image (returned None)"])).
Proof.
  intros Hs Hsz Hp. apply N.eqb_neq in Hsz. split.
  - intros e Hi Hh. unfold_cii. rewrite Hs. simpl. rewrite Hsz, Hp. simpl.
    rewrite Hi. simpl. rewrite Hh. reflexivity.
  - intros Hi. unfold_cii. rewrite Hs. simpl. rewrite Hsz, Hp. simpl.
    rewrite Hi. reflexivity.
Qed.

Lemma zero_area_true img :
  zero_area img = ([], inr true) -> ndarray_size img = 0.
Proof.
  unfold zero_area, py_index, bind, ret, raise.
  destruct (Nat.eqb_spec (ndarray_size img) 0) as [E|E]; [auto|].
  unfold ndarray_size in *.
  destruct (shape img) as [|s0 [|s1 rest]]; simpl in *; try discriminate.
  - destruct (Nat.eqb_spec s0 0); [subst; simpl in E; lia|discriminate].
  - destruct (Nat.eqb_spec s0 0); [subst; simpl in E; lia|].
    destruct (Nat.eqb_spec s1 0); [subst; rewrite Nat.mul_0_r in E; lia|discriminate].
Qed.

Lemma zero_area_size img :
  ndarray_size img = 0 -> zero_area img = ([], inr true).
Proof.
  unfold zero_area. intros H. rewrite H. reflexivity.
Qed.

Lemma zero_area_index img :
  ndarray_size img <> 0 -> length (shape img) < 2 ->
  zero_area img = ([], inl (mk_exn IndexError "tuple index out of range")).
Proof.
  unfold zero_area, py_index, bind, ret, raise, ndarray_size.
  intros H Hl. destruct (Nat.eqb_spec (fold_right Nat.mul 1 (shape img)) 0) as [E|_];
    [contradiction|].
  destruct (shape img) as [|s0 [|s1 rest]]; simpl in *; [reflexivity| |lia].
  destruct (Nat.eqb_spec s0 0); [subst; simpl in H; lia|reflexivity].
Qed.

(** A decoded array of size 0 gives one Critical [Zero Pixel Area] finding
    rendering its shape; conversely that finding only ever comes from an
    array of size 0 (the [shape[0]] and [shape[1]] tests never decide
    alone). *)
Theorem cii_zero_area (env : Env) (p : string) (sz : N) (img : ndarray) :
  getsize env p = inr sz -> sz <> 0%N -> pil_verify env p = None ->
  imread env p = inr (Some img) -> ndarray_size img = 0 ->
  check_image_integrity env p =
    ([CGetSize p; CPilVerify p; CImread p],
     inr [mk_result p "IntegrityLinter" "Zero Pixel Area" "Critical"
            ("Image has invalid dimensions: " ++ py_tuple_repr (shape img))])
  /\ (forall env' q l x,
        outcome (check_image_integrity env' q) = inr l -> In x l ->
        issue_type x = "Zero Pixel Area" ->
        exists img', imread env' q = inr (Some img') /\ ndarray_size img' = 0).
Proof.
  intros Hs Hsz Hp Hi H0. apply N.eqb_neq in Hsz. split.
  - unfold_cii. rewrite Hs. simpl. rewrite Hsz, Hp. simpl. rewrite Hi. simpl.
    rewrite (zero_area_size img H0). reflexivity.
  - clear Hs Hsz Hp Hi H0. intros env' q l x. unfold_cii. case_cii env' q.
    all: intros H Hin Hty; inversion H; subst;
      repeat (destruct Hin as [Hin|Hin]; [subst; try discriminate|]); try contradiction.
    eexists; split; [reflexivity|]. apply zero_area_true. assumption.
Qed.

(** A decoded array of non-zero size with fewer than two dimensions makes
    [img_cv.shape[1]] (or [shape[0]]) raise [IndexError], which the outer
    handler reports as an [Unknown Error] "tuple index out of range". *)
Theorem cii_low_rank_array (env : Env) (p : string) (sz : N) (img : ndarray) :
  getsize env p = inr sz -> sz <> 0%N -> pil_verify env p = None ->
  imread env p = inr (Some img) -> ndarray_size img <> 0 -> length (shape img) < 2 ->
  check_image_integrity env p =
    ([CGetSize p; CPilVerify p; CImread p],
     inr [mk_result p "IntegrityLinter" "Unknown Error" "Critical"
            "An unexpected error occurred: tuple index out of range"]).
Proof.
  intros Hs Hsz Hp Hi H0 Hl. apply N.eqb_neq in Hsz.
  unfold_cii. rewrite Hs. simpl. rewrite Hsz, Hp. simpl. rewrite Hi. simpl.
  rewrite (zero_area_index img H0 Hl). reflexivity.
Qed.

Lemma scan_files_origin env root files b acc b' res x :
  outcome (scan_files env root files (b, acc)) = inr (b', res) -> In x res ->
  In x acc \/ exists f l, In f files /\ eligible f = true /\
    outcome (check_image_integrity env (path_join root f)) = inr l /\ In x l.
Proof.
  revert b acc. induction files as [|f fs IH]; intros b acc; simpl.
  - intros H Hin. injection H as _ <-. auto.
  - intros H Hin. destruct (is_skipped f) eqn:Hs.
    + destruct (IH _ _ H Hin) as [Hx|[g [l [H1 [H2 H3]]]]]; [auto|].
      right. exists g, l. auto.
    + destruct (has_supported_ext f) eqn:He.
      * destruct (outcome (check_image_integrity env (path_join root f))) as [e|l] eqn:Ho.
        -- rewrite (bind_inl _ _ _ Ho) in H. discriminate.
        -- rewrite (outcome_bind_inr _ _ _ Ho) in H.
           destruct (IH _ _ H Hin) as [Hx|[g [l' [H1 [H2 H3]]]]].
           ++ simpl in Hx. apply in_app_or in Hx as [Hx|Hx]; [auto|].
              right. exists f, l. unfold eligible. rewrite Hs, He. auto.
           ++ right. exists g, l'. auto.
      * destruct (IH _ _ H Hin) as [Hx|[g [l [H1 [H2 H3]]]]]; [auto|].
        right. exists g, l. auto.
Qed.

Lemma scan_walk_origin env entries b acc b' res x :
  outcome (scan_walk env entries (b, acc)) = inr (b', res) -> In x res ->
  In x acc \/ exists r fs f l, In (r, fs) entries /\ In f fs /\ eligible f = true /\
    outcome (check_image_integrity env (path_join r f)) = inr l /\ In x l.
Proof.
  revert b acc. induction entries as [|[r fs] es IH]; intros b acc; simpl.
  - intros H Hin. injection H as _ <-. auto.
  - intros H Hin.
    destruct (outcome (scan_files env r fs (b, acc))) as [e|[b1 a1]] eqn:Ho.
    + rewrite (bind_inl _ _ _ Ho) in H. discriminate.
    + rewrite (outcome_bind_inr _ _ _ Ho) in H.
      destruct (IH _ _ H Hin) as [Hx|[r' [fs' [f [l [H1 [H2 [H3 [H4 H5]]]]]]]]].
      * destruct (scan_files_origin _ _ _ _ _ _ _ _ Ho Hx) as [Hy|[f [l [H1 [H2 [H3 H4]]]]]];
          [auto|].
        right. exists r, fs, f, l. auto.
      * right. exists r', fs', f, l. auto.
Qed.

Lemma scan_files_raise env root files acc e :
  outcome (scan_files env root files acc) = inl e ->
  exists f, outcome (check_image_integrity env (path_join root f)) = inl e.
Proof.
  revert acc. induction files as [|f fs IH]; intros acc; simpl; [discriminate|].
  destruct (is_skipped f); [apply IH|]. destruct (has_supported_ext f); [|apply IH].
  destruct (outcome (check_image_integrity env (path_join root f))) as [e'|l] eqn:Ho.
  - rewrite (bind_inl _ _ _ Ho). intros H. injection H as ->. eauto.
  - rewrite (outcome_bind_inr _ _ _ Ho). apply IH.
Qed.

Lemma scan_walk_raise env entries acc e :
  outcome (scan_walk env entries acc) = inl e ->
  exists q, outcome (check_image_integrity env q) = inl e.
Proof.
  revert acc. induction entries as [|[r fs] es IH]; intros acc; simpl; [discriminate|].
  destruct (outcome (scan_files env r fs acc)) as [e'|a] eqn:Ho.
  - rewrite (bind_inl _ _ _ Ho). intros H. injection H as ->.
    destruct (scan_files_raise _ _ _ _ _ Ho) as [f Hf]. eauto.
  - rewrite (outcome_bind_inr _ _ _ Ho). apply IH.
Qed.

Lemma check_raise_base env p e :
  outcome (check env p) = inl e -> is_Exception (exn_cls e) = false.
Proof.
  destruct (lookup env p) as [[nm|nm cs]|] eqn:Hl.
  - rewrite (check_file _ _ _ Hl). destruct (has_supported_ext p); [|discriminate].
    apply cii_raise_base.
  - rewrite (check_dir _ _ _ _ Hl). unfold outcome at 1. cbn [snd].
    destruct (outcome (scan_walk env (walk_node p (Dir nm cs)) (false, []))) as [e'|a] eqn:Ho;
      [|discriminate].
    intros H. injection H as <-.
    destruct (scan_walk_raise _ _ _ _ Ho) as [q Hq]. exact (cii_raise_base _ _ _ Hq).
  - rewrite (check_missing _ _ Hl). discriminate.
Qed.

Lemma cii_paths env q l x :
  outcome (check_image_integrity env q) = inr l -> In x l -> file_path x = q.
Proof.
  unfold_cii. case_cii env q.
  all: intros H Hin; inversion H; subst;
    repeat (destruct Hin as [Hin|Hin]; [subst; reflexivity|]); contradiction.
Qed.

Lemma cii_shape env q l x :
  outcome (check_image_integrity env q) = inr l -> In x l ->
  linter_name x = "IntegrityLinter" /\
  In (issue_type x) ["Empty File"; "Corrupted Image (PIL)"; "Corrupted Image (OpenCV)";
                     "Zero Pixel Area"; "Grayscale as RGB"; "Unknown Error";
                     "Path Error"; "No Images Found"] /\
  ((severity x = "Warning" /\ issue_type x = "Grayscale as RGB") \/
   (severity x = "Critical" /\ issue_type x <> "Grayscale as RGB")).
Proof.
  unfold_cii. case_cii env q.
  all: intros H Hin; inversion H; subst;
    repeat (destruct Hin as [Hin|Hin];
            [subst; split; [reflexivity|split; [simpl; tauto|
               first [left; split; reflexivity | right; split; [reflexivity|discriminate]]]]|]);
    contradiction.
Qed.

(** Every finding [check] returns names the linter [IntegrityLinter], has
    one of the eight issue types, and is a Warning exactly when it is
    [Grayscale as RGB] (all others are Critical). *)
Theorem check_findings_shape (env : Env) (p : string) (l : list LintResult) :
  outcome (check env p) = inr l -> forall x, In x l ->
  linter_name x = "IntegrityLinter" /\
  In (issue_type x) ["Empty File"; "Corrupted Image (PIL)"; "Corrupted Image (OpenCV)";
                     "Zero Pixel Area"; "Grayscale as RGB"; "Unknown Error";
                     "Path Error"; "No Images Found"] /\
  ((severity x = "Warning" /\ issue_type x = "Grayscale as RGB") \/
   (severity x = "Critical" /\ issue_type x <> "Grayscale as RGB")).
Proof.
  assert (Hfix : forall x, x = r_path_error p \/ x = r_unsupported env p \/ x = r_no_images env p ->
    linter_name x = "IntegrityLinter" /\
    In (issue_type x) ["Empty File"; "Corrupted Image (PIL)"; "Corrupted Image (OpenCV)";
                       "Zero Pixel Area"; "Grayscale as RGB"; "Unknown Error";
                       "Path Error"; "No Images Found"] /\
    ((severity x = "Warning" /\ issue_type x = "Grayscale as RGB") \/
     (severity x = "Critical" /\ issue_type x <> "Grayscale as RGB"))).
  { intros x [-> | [-> | ->]]; (split; [reflexivity|split; [simpl; tauto|
      right; split; [reflexivity|discriminate]]]). }
  destruct (lookup env p) as [[nm|nm cs]|] eqn:Hl.
  - rewrite (check_file _ _ _ Hl). destruct (has_supported_ext p).
    + intros H x Hin. exact (cii_shape env p l x H Hin).
    + intros H x Hin. injection H as <-. destruct Hin as [<-|[]]. auto.
  - rewrite (check_dir _ _ _ _ Hl). unfold outcome at 1. cbn [snd].
    destruct (outcome (scan_walk env (walk_node p (Dir nm cs)) (false, []))) as [e|[b res]]
      eqn:Ho; [discriminate|].
    intros H x Hin. injection H as <-. destruct b.
    + destruct (scan_walk_origin _ _ _ _ _ _ _ Ho Hin)
        as [[]|[r [fs [f [l0 [_ [_ [_ [H4 H5]]]]]]]]].
      exact (cii_shape _ _ _ _ H4 H5).
    + destruct Hin as [<-|[]]. auto.
  - rewrite (check_missing _ _ Hl). intros H x Hin. injection H as <-.
    destruct Hin as [<-|[]]. auto.
Qed.

(** On a directory, the result of [check] is either the single
    [No Images Found] finding for the directory, or a list of findings each
    about [os.path.join(root, f)] for an eligible file [f] of the walk. *)
Theorem check_directory_finding_paths (env : Env) (d nm : string) (cs : list node)
  (l : list LintResult) :
  lookup env d = Some (Dir nm cs) -> outcome (check env d) = inr l ->
  l = [mk_result d "IntegrityLinter" "No Images Found" "Critical"
         ("No image files found with extensions " ++ py_set_repr (set_order env))] \/
  forall x, In x l -> exists r fs f,
    In (r, fs) (walk_node d (Dir nm cs)) /\ In f fs /\ eligible f = true /\
    file_path x = path_join r f.
Proof.
  intros Hl. rewrite (check_dir _ _ _ _ Hl). unfold outcome at 1. cbn [snd].
  destruct (outcome (scan_walk env (walk_node d (Dir nm cs)) (false, []))) as [e|[b res]]
    eqn:Ho; [discriminate|].
  intros H. injection H as <-. destruct b; [right|left; reflexivity].
  intros x Hin.
  destruct (scan_walk_origin _ _ _ _ _ _ _ Ho Hin)
    as [[]|[r [fs [f [l0 [H1 [H2 [H3 [H4 H5]]]]]]]]].
  exists r, fs, f. repeat split; auto. exact (cii_paths _ _ _ _ H4 H5).
Qed.

(** Without interrupts, [check] on a directory returns the per-file
    results of the eligible files concatenated in walk order, or the single
    [No Images Found] finding when the walk holds no eligible file. *)
Theorem check_directory_result (env : Env) (d nm : string) (cs : list node) :
  no_interrupts env -> lookup env d = Some (Dir nm cs) ->
  outcome (check env d) =
    inr (if existsb (fun e => existsb eligible (snd e)) (walk_node d (Dir nm cs))
         then flat_map (fun e => flat_map (fun f => cii_res env (path_join (fst e) f))
                                          (filter eligible (snd e)))
                       (walk_node d (Dir nm cs))
         else [mk_result d "IntegrityLinter" "No Images Found" "Critical"
                 ("No image files found with extensions " ++ py_set_repr (set_order env))]).
Proof.
  intros Hn Hl. rewrite (check_dir _ _ _ _ Hl). unfold outcome at 1. cbn [snd].
  rewrite (scan_walk_outcome env _ false [] Hn). reflexivity.
Qed.

Lemma cii_res_length env q : length (cii_res env q) <= 1.
Proof.
  unfold cii_res. unfold_cii. case_cii env q. all: simpl; auto.
Qed.

Lemma eligible_count_pos (w : list (string * list string)) :
  existsb (fun e => existsb eligible (snd e)) w = true ->
  0 < length (flat_map (fun e => filter eligible (snd e)) w).
Proof.
  intros H. apply existsb_exists in H as [[r fs] [Hin Hex]].
  apply existsb_exists in Hex as [f [Hf He]].
  assert (Hm : In f (flat_map (fun e => filter eligible (snd e)) w)).
  { apply in_flat_map. exists (r, fs). split; [exact Hin|]. apply filter_In. auto. }
  destruct (flat_map _ w); [contradiction | simpl; lia].
Qed.

(** Without interrupts, a directory scan returns exactly one finding when
    the walk has no eligible file, and otherwise at most one finding per
    eligible file of the walk. *)
Theorem check_directory_result_length (env : Env) (d nm : string) (cs : list node)
  (l : list LintResult) :
  no_interrupts env -> lookup env d = Some (Dir nm cs) -> outcome (check env d) = inr l ->
  (length (flat_map (fun e => filter eligible (snd e)) (walk_node d (Dir nm cs))) = 0 ->
   length l = 1) /\
  length l <= Nat.max 1 (length (flat_map (fun e => filter eligible (snd e))
                                   (walk_node d (Dir nm cs)))).
Proof.
  intros Hn Hl. rewrite (check_dir _ _ _ _ Hl).
  remember (walk_node d (Dir nm cs)) as w eqn:Hw. clear Hw.
  unfold outcome at 1. cbn [snd].
  rewrite (scan_walk_outcome env _ false [] Hn). intros H. injection H as <-.
  cbn [orb app]. case_eq (existsb (fun e => existsb eligible (snd e)) w); intros Hex.
  2: split; [reflexivity | apply Nat.le_max_l].
  pose proof (eligible_count_pos w Hex) as Hpos.
  split; [intros Hz; lia|].
  etransitivity; [|apply Nat.le_max_r].
  clear Hex Hpos.
  induction w as [|[r fs] es IH]; simpl; [lia|].
  rewrite !length_app.
  enough (length (flat_map (fun f => cii_res env (path_join r f)) (filter eligible fs)) <=
          length (filter eligible fs)) by lia.
  induction (filter eligible fs) as [|f gs IHg]; simpl; [lia|].
  rewrite length_app. pose proof (cii_res_length env (path_join r f)). lia.
Qed.

Lemma scan_files_abort env root files acc f e :
  In f files -> eligible f = true ->
  outcome (check_image_integrity env (path_join root f)) = inl e ->
  exists e', outcome (scan_files env root files acc) = inl e'.
Proof.
  revert acc. induction files as [|g fs IH]; intros acc Hin He Hf; [contradiction|].
  simpl. destruct Hin as [->|Hin].
  - unfold eligible in He. apply andb_true_iff in He as [Hs Hx].
    apply negb_true_iff in Hs. rewrite Hs, Hx. rewrite (bind_inl _ _ _ Hf). eexists; reflexivity.
  - destruct (is_skipped g); [apply IH; assumption|].
    destruct (has_supported_ext g); [|apply IH; assumption].
    destruct (outcome (check_image_integrity env (path_join root g))) as [e'|l] eqn:Ho.
    + rewrite (bind_inl _ _ _ Ho). eexists; reflexivity.
    + rewrite (outcome_bind_inr _ _ _ Ho). apply IH; assumption.
Qed.

Lemma scan_walk_abort env entries acc r fs f e :
  In (r, fs) entries -> In f fs -> eligible f = true ->
  outcome (check_image_integrity env (path_join r f)) = inl e ->
  exists e', outcome (scan_walk env entries acc) = inl e'.
Proof.
  revert acc. induction entries as [|[r' fs'] es IH]; intros acc Hin Hf He Hc;
    [contradiction|].
  simpl. destruct (outcome (scan_files env r' fs' acc)) as [e'|a] eqn:Ho.
  - rewrite (bind_inl _ _ _ Ho). eexists; reflexivity.
  - rewrite (outcome_bind_inr _ _ _ Ho). destruct Hin as [Hin|Hin].
    + injection Hin as -> ->. destruct (scan_files_abort env r fs acc f e Hf He Hc) as [e1 H1].
      rewrite Ho in H1. discriminate.
    + apply (IH a Hin Hf He Hc).
Qed.

(** If the per-file check of any eligible file of the walk raises, the
    whole directory scan raises (no partial list is returned), and what it
    raises is outside the [Exception] hierarchy. *)
Theorem check_interrupt_aborts_scan (env : Env) (d nm : string) (cs : list node)
  (r : string) (fs : list string) (f : string) (e : exn) :
  lookup env d = Some (Dir nm cs) ->
  In (r, fs) (walk_node d (Dir nm cs)) -> In f fs -> eligible f = true ->
  outcome (check_image_integrity env (path_join r f)) = inl e ->
  exists e', outcome (check env d) = inl e' /\ is_Exception (exn_cls e') = false.
Proof.
  intros Hl Hin Hf He Hc.
  destruct (scan_walk_abort env _ (false, []) r fs f e Hin Hf He Hc) as [e' He'].
  exists e'. split.
  - rewrite (check_dir _ _ _ _ Hl). unfold outcome at 1. cbn [snd]. rewrite He'. reflexivity.
  - destruct (scan_walk_raise _ _ _ _ He') as [q Hq]. exact (cii_raise_base _ _ _ Hq).
Qed.

(** The [file == 'Thumbs.db'] half of the skip rule never changes which
    files are checked: [Thumbs.db] has no supported extension anyway. *)
Theorem thumbs_rule_redundant (f : string) :
  eligible f = negb (startswith f ".") && has_supported_ext f.
Proof.
  unfold eligible, is_skipped.
  destruct (String.eqb_spec f "Thumbs.db") as [->|_]; [reflexivity|].
  rewrite orb_false_r. reflexivity.
Qed.

Ltac unfold_lcii :=
  unfold Legacy.check_image_integrity, Legacy.check_image_integrity_body, os_path_getsize,
    pil_open_verify, cv2_imread, try_except, bind, emit, ret, raise,
    outcome, trace in *.

Ltac case_lcii env p :=
  destruct (getsize env p) as [?e|?sz] eqn:?Hs; simpl in *;
  [| destruct (N.eqb _ 0) eqn:?Hn0; simpl in *;
     [| destruct (pil_verify env p) as [?e|] eqn:?Hp; simpl in *;
        [ destruct (pil_handled _) eqn:?Hh; simpl in *
        | destruct (imread env p) as [?e|[?img|]] eqn:?Hi; simpl in *;
          [ | match goal with
              | |- context [zero_area ?a] =>
                  destruct (zero_area_cases a) as [?Hz|[?Hz|?Hz]]; rewrite ?Hz; simpl in *
              end
            | ] ] ] ];
  try (destruct (is_Exception _) eqn:?Hx); simpl in *.

Lemma lcii_raise_base env p e :
  outcome (Legacy.check_image_integrity env p) = inl e -> is_Exception (exn_cls e) = false.
Proof.
  unfold Legacy.check_image_integrity, try_except, outcome.
  destruct (Legacy.check_image_integrity_body env p) as [t [e1|o]]; simpl; [|discriminate].
  destruct (is_Exception (exn_cls e1)) eqn:Hx; simpl; [discriminate|].
  intros H; inversion H; subst; exact Hx.
Qed.

Lemma lcii_returns env p :
  no_interrupts env ->
  exists o, outcome (Legacy.check_image_integrity env p) = inr o.
Proof.
  intros Hn. unfold_lcii. case_lcii env p.
  all: try (eexists; reflexivity).
  all: exfalso;
    match goal with
    | Hx : is_Exception (exn_cls ?e) = false |- _ =>
        rewrite (Hn p e) in Hx; [discriminate|];
        first [left; assumption | right; left; assumption | right; right; assumption]
    end.
Qed.

Lemma legacy_issue_of env q o :
  outcome (Legacy.check_image_integrity env q) = inr o ->
  Legacy.issue_of env q = match o with Some i => [i] | None => [] end.
Proof. intros H. unfold Legacy.issue_of. rewrite H. reflexivity. Qed.

Lemma legacy_scan_files_outcome env root files acc :
  no_interrupts env ->
  outcome (Legacy.scan_files env root files acc) =
    inr (acc ++ flat_map (fun f => Legacy.issue_of env (path_join root f))
                         (filter has_supported_ext files)).
Proof.
  intros Hn. revert acc. induction files as [|f fs IH]; intros acc; simpl.
  - rewrite app_nil_r. reflexivity.
  - destruct (has_supported_ext f) eqn:Hx; simpl; [|apply IH].
    destruct (lcii_returns env (path_join root f) Hn) as [o Ho].
    rewrite (outcome_bind_inr _ _ _ Ho), (legacy_issue_of _ _ _ Ho).
    destruct o as [i|]; rewrite IH; simpl; [rewrite <- app_assoc|]; reflexivity.
Qed.

Lemma legacy_scan_walk_outcome env entries acc :
  no_interrupts env ->
  outcome (Legacy.scan_walk env entries acc) =
    inr (acc ++ flat_map (fun e => flat_map (fun f => Legacy.issue_of env (path_join (fst e) f))
                                            (filter has_supported_ext (snd e))) entries).
Proof.
  intros Hn. revert acc. induction entries as [|[r fs] es IH]; intros acc; simpl.
  - rewrite app_nil_r. reflexivity.
  - rewrite (outcome_bind_inr _ _ _ (legacy_scan_files_outcome env r fs acc Hn)).
    rewrite IH, app_assoc. reflexivity.
Qed.

Lemma legacy_audit_found env d n :
  lookup env d = Some n ->
  Legacy.audit_dataset env d =
    (CExists d :: CWalk d :: trace (Legacy.scan_walk env (walk_node d n) []),
     outcome (Legacy.scan_walk env (walk_node d n) [])).
Proof.
  intros Hl. unfold Legacy.audit_dataset, os_path_exists, os_walk, bind, emit, ret.
  rewrite Hl. cbn -[walk_node Legacy.scan_walk].
  destruct (Legacy.scan_walk env (walk_node d n) []) as [t r]. reflexivity.
Qed.

(** The earlier [IntegrityAuditor.audit_dataset]: a missing path gives one
    [Path Error] issue after the existence query only; otherwise (without
    interrupts) the issues of every file of the walk with a supported
    extension, hidden or not, in walk order. *)
Theorem legacy_audit_result (env : Env) (d : string) :
  (lookup env d = None ->
   Legacy.audit_dataset env d =
     ([CExists d], inr [Legacy.mk_issue d "Path Error" "Path does not exist"])) /\
  (forall n, no_interrupts env -> lookup env d = Some n ->
   outcome (Legacy.audit_dataset env d) =
     inr (flat_map (fun e => flat_map (fun f => Legacy.issue_of env (path_join (fst e) f))
                                      (filter has_supported_ext (snd e)))
                   (walk_node d n))).
Proof.
  split.
  - intros Hl. unfold Legacy.audit_dataset, os_path_exists, bind, emit, ret.
    rewrite Hl. reflexivity.
  - intros n Hn Hl. rewrite (legacy_audit_found _ _ _ Hl). unfold outcome at 1. cbn [snd].
    rewrite (legacy_scan_walk_outcome _ _ [] Hn). reflexivity.
Qed.

(** The earlier and the current per-file checks make the same queries in
    the same order on every input; unless OpenCV raises [cv2.error], they
    raise the same exception or report the same (path, issue type), the
    current one adding only a [Grayscale as RGB] warning. *)
Theorem legacy_per_file_agreement (env : Env) (p : string) :
  trace (Legacy.check_image_integrity env p) = trace (check_image_integrity env p) /\
  ((forall e, imread env p = inl e -> cv2_handled (exn_cls e) = false) ->
   match outcome (Legacy.check_image_integrity env p), outcome (check_image_integrity env p) with
   | inl e1, inl e2 => e1 = e2
   | inr o, inr l =>
       map (fun i => (Legacy.file_path i, Legacy.issue_type i))
           (match o with Some i => [i] | None => [] end) =
       map (fun x => (file_path x, issue_type x))
           (filter (fun x => negb (String.eqb (issue_type x) "Grayscale as RGB")) l)
   | _, _ => False
   end).
Proof.
  unfold_lcii. unfold_cii. case_cii env p.
  all: split; [reflexivity|intros Hc; try reflexivity].
  all: exfalso; rewrite (Hc _ eq_refl) in *; discriminate.
Qed.

(** On a [cv2.error] from [cv2.imread], the earlier checker, which has no
    handler for it, reports [Unknown Error]; the current one reports
    [Corrupted Image (OpenCV)]. *)
Theorem cv2_error_divergence (env : Env) (p : string) (sz : N) (e : exn) :
  getsize env p = inr sz -> sz <> 0%N -> pil_verify env p = None ->
  imread env p = inl e -> cv2_handled (exn_cls e) = true ->
  Legacy.check_image_integrity env p =
    ([CGetSize p; CPilVerify p; CImread p],
     inr (Some (Legacy.mk_issue p "Unknown Error"
                  ("An unexpected error occurred: " ++ exn_str e)))) /\
  check_image_integrity env p =
    ([CGetSize p; CPilVerify p; CImread p],
     inr [mk_result p "IntegrityLinter" "Corrupted Image (OpenCV)" "Critical"
            ("OpenCV cannot decode image: " ++ exn_str e)]).
Proof.
  intros Hs Hsz Hp Hi Hh. apply N.eqb_neq in Hsz.
  assert (Hx : is_Exception (exn_cls e) = true)
    by (destruct (exn_cls e); try discriminate; reflexivity).
  split.
  - unfold_lcii. rewrite Hs. simpl. rewrite Hsz, Hp. simpl. rewrite Hi. simpl.
    rewrite Hx. reflexivity.
  - unfold_cii. rewrite Hs. simpl. rewrite Hsz, Hp. simpl. rewrite Hi. simpl.
    rewrite Hh. reflexivity.
Qed.

(** ** Witnesses of the further properties *)

Lemma cii_pil_failure_witness :
  check_image_integrity faulty_env "data/trunc.jpg" =
    ([CGetSize "data/trunc.jpg"; CPilVerify "data/trunc.jpg"],
     inr [mk_result "data/trunc.jpg" "IntegrityLinter" "Corrupted Image (PIL)" "Critical"
            "PIL cannot open/verify image: image file is truncated"]).
Proof.
  exact (cii_pil_failure faulty_env "data/trunc.jpg" 2048%N
           (mk_exn OSError "image file is truncated")
           eq_refl ltac:(discriminate) eq_refl eq_refl).
Defined.

Lemma cii_opencv_failure_witness :
  check_image_integrity faulty_env "data/bad.png" =
    ([CGetSize "data/bad.png"; CPilVerify "data/bad.png"; CImread "data/bad.png"],
     inr [mk_result "data/bad.png" "IntegrityLinter" "Corrupted Image (OpenCV)" "Critical"
            "OpenCV cannot decode image: decoder failure"]) /\
  check_image_integrity faulty_env "data/none.jpg" =
    ([CGetSize "data/none.jpg"; CPilVerify "data/none.jpg"; CImread "data/none.jpg"],
     inr [mk_result "data/none.jpg" "IntegrityLinter" "Corrupted Image (OpenCV)" "Critical"
            "OpenCV cannot decode image (returned None)"]).
Proof.
  split.
  - exact (proj1 (cii_opencv_failure faulty_env "data/bad.png" 2048%N
                    eq_refl ltac:(discriminate) eq_refl)
             (mk_exn Cv2Error "decoder failure") eq_refl eq_refl).
  - exact (proj2 (cii_opencv_failure faulty_env "data/none.jpg" 2048%N
                    eq_refl ltac:(discriminate) eq_refl) eq_refl).
Defined.

Lemma cii_zero_area_witness :
  check_image_integrity faulty_env "data/zero.png" =
    ([CGetSize "data/zero.png"; CPilVerify "data/zero.png"; CImread "data/zero.png"],
     inr [mk_result "data/zero.png" "IntegrityLinter" "Zero Pixel Area" "Critical"
            "Image has invalid dimensions: (0, 4, 3)"]).
Proof.
  exact (proj1 (cii_zero_area faulty_env "data/zero.png" 2048%N (mk_ndarray [0; 4; 3] [])
                  eq_refl ltac:(discriminate) eq_refl eq_refl eq_refl)).
Defined.

Lemma cii_low_rank_array_witness :
  check_image_integrity faulty_env "data/flat.png" =
    ([CGetSize "data/flat.png"; CPilVerify "data/flat.png"; CImread "data/flat.png"],
     inr [mk_result "data/flat.png" "IntegrityLinter" "Unknown Error" "Critical"
            "An unexpected error occurred: tuple index out of range"]).
Proof.
  exact (cii_low_rank_array faulty_env "data/flat.png" 2048%N
           (mk_ndarray [4] [[1]; [2]; [3]; [4]]%Z)
           eq_refl ltac:(discriminate) eq_refl eq_refl ltac:(discriminate)
           ltac:(simpl; lia)).
Defined.

Lemma check_findings_shape_witness :
  Forall (fun x => linter_name x = "IntegrityLinter") sample_data_findings.
Proof.
  apply Forall_forall. intros x Hx.
  exact (proj1 (check_findings_shape sample_env "data" sample_data_findings
                  ltac:(vm_compute; reflexivity) x Hx)).
Defined.

Lemma check_directory_finding_paths_witness :
  sample_data_findings =
    [mk_result "data" "IntegrityLinter" "No Images Found" "Critical"
       ("No image files found with extensions " ++ py_set_repr (set_order sample_env))] \/
  forall x, In x sample_data_findings -> exists r fs f,
    In (r, fs) (walk_node "data" (Dir "data" data_children)) /\ In f fs /\
    eligible f = true /\ file_path x = path_join r f.
Proof.
  exact (check_directory_finding_paths sample_env "data" "data" data_children
           sample_data_findings eq_refl ltac:(vm_compute; reflexivity)).
Defined.

Lemma check_directory_result_witness :
  outcome (check sample_env "data") =
    inr (if existsb (fun e => existsb eligible (snd e)) (walk_node "data" tree_data)
         then flat_map (fun e => flat_map (fun f => cii_res sample_env (path_join (fst e) f))
                                          (filter eligible (snd e)))
                       (walk_node "data" tree_data)
         else [mk_result "data" "IntegrityLinter" "No Images Found" "Critical"
                 ("No image files found with extensions "
                    ++ py_set_repr (set_order sample_env))]).
Proof.
  exact (check_directory_result sample_env "data" "data" data_children
           sample_env_no_interrupts eq_refl).
Defined.

Lemma check_directory_result_length_witness :
  length sample_data_findings <=
  Nat.max 1 (length (flat_map (fun e => filter eligible (snd e))
                       (walk_node "data" (Dir "data" data_children)))) /\
  length [mk_result "docs" "IntegrityLinter" "No Images Found" "Critical"
            ("No image files found with extensions " ++ py_set_repr supported_extensions)] = 1.
Proof.
  split.
  - exact (proj2 (check_directory_result_length sample_env "data" "data" data_children
                    sample_data_findings sample_env_no_interrupts eq_refl
                    ltac:(vm_compute; reflexivity))).
  - exact (proj1 (check_directory_result_length sample_env "docs" "docs" docs_children
                    [mk_result "docs" "IntegrityLinter" "No Images Found" "Critical"
                       ("No image files found with extensions " ++
                        py_set_repr supported_extensions)]
                    sample_env_no_interrupts eq_refl
                    ltac:(vm_compute; reflexivity))
                 ltac:(vm_compute; reflexivity)).
Defined.

Lemma check_interrupt_aborts_scan_witness :
  exists e', outcome (check interrupted_env "data") = inl e' /\
             is_Exception (exn_cls e') = false.
Proof.
  exact (check_interrupt_aborts_scan interrupted_env "data" "data" data_children
           "data" (file_names data_children) "valid.jpg" (mk_exn KeyboardInterrupt "")
           eq_refl ltac:(simpl; tauto) ltac:(simpl; tauto) eq_refl
           ltac:(vm_compute; reflexivity)).
Defined.

Lemma legacy_audit_result_witness :
  Legacy.audit_dataset sample_env "missing.png" =
    ([CExists "missing.png"],
     inr [Legacy.mk_issue "missing.png" "Path Error" "Path does not exist"]) /\
  outcome (Legacy.audit_dataset sample_env "data") =
    inr (flat_map (fun e => flat_map (fun f => Legacy.issue_of sample_env (path_join (fst e) f))
                                     (filter has_supported_ext (snd e)))
                  (walk_node "data" tree_data)).
Proof.
  split.
  - exact (proj1 (legacy_audit_result sample_env "missing.png") eq_refl).
  - exact (proj2 (legacy_audit_result sample_env "data") tree_data
             sample_env_no_interrupts eq_refl).
Defined.

Lemma legacy_per_file_agreement_witness :
  match outcome (Legacy.check_image_integrity sample_env "data/.cache/gray.JPG"),
        outcome (check_image_integrity sample_env "data/.cache/gray.JPG") with
  | inl e1, inl e2 => e1 = e2
  | inr o, inr l =>
      map (fun i => (Legacy.file_path i, Legacy.issue_type i))
          (match o with Some i => [i] | None => [] end) =
      map (fun x => (file_path x, issue_type x))
          (filter (fun x => negb (String.eqb (issue_type x) "Grayscale as RGB")) l)
  | _, _ => False
  end.
Proof.
  exact (proj2 (legacy_per_file_agreement sample_env "data/.cache/gray.JPG")
           (fun e H => ltac:(discriminate H))).
Defined.

Lemma cv2_error_divergence_witness :
  Legacy.check_image_integrity faulty_env "data/bad.png" =
    ([CGetSize "data/bad.png"; CPilVerify "data/bad.png"; CImread "data/bad.png"],
     inr (Some (Legacy.mk_issue "data/bad.png" "Unknown Error"
                  "An unexpected error occurred: decoder failure"))).
Proof.
  exact (proj1 (cv2_error_divergence faulty_env "data/bad.png" 2048%N
                  (mk_exn Cv2Error "decoder failure")
                  eq_refl ltac:(discriminate) eq_refl eq_refl eq_refl)).
Defined.
